(** * Multiplayer Pong server: rooms, paddles and ball physics

    A shallow embedding of [server/src/index.ts]: the game constants, the
    [GameState] and [Room] records, the physics step [updateBall] with
    [resetBall], and the three socket handlers ([joinGame], [paddleMove],
    [disconnect]) acting on the two registries [rooms] and [playerRooms].

    JavaScript numbers are IEEE 754 binary64 values, so the ball and paddle
    coordinates are primitive floats and every arithmetic operation of the
    source is the binary64 one.  The two score counters only ever hold 0 and
    the results of [++]; they are integers and are modelled in [Z], with
    [++] written out as the binary64 sum it is: exact from -2^53 up to
    2^53 - 1, rounded to the nearest representable integer beyond
    ([increment]).

    Each [Math.random() > 0.5] is an input of the function that draws it: a
    boolean per draw.  A handler returns the new registries together with the
    messages it emits, in order; [console.log] is left out, and so is the
    membership of socket.io rooms, which [io.to(roomId).emit] resolves on
    its own.  The interval of a room is the boolean [gameLoop]: the handle is
    set exactly while the timer runs ([timer_started_once] below). *)

From Stdlib Require Import ZArith Floats.
From stdpp Require Import gmap strings list fin_maps.

Open Scope Z_scope.

(** ** Numbers *)

Module Num.

(** [a >= b] and [a > b] of JavaScript: false as soon as one side is NaN. *)
Definition geb (a b : float) : bool := PrimFloat.leb b a.
Definition gtb (a b : float) : bool := PrimFloat.ltb b a.

Definition is_neg_zero (a : float) : bool :=
  match PrimFloat.classify a with NZero => true | _ => false end.

(** [Math.max(a, b)]: NaN when an argument is NaN, and +0 is larger
    than -0. *)
Definition Math_max (a b : float) : float :=
  if PrimFloat.is_nan a || PrimFloat.is_nan b then PrimFloat.nan
  else if PrimFloat.ltb a b then b
  else if PrimFloat.ltb b a then a
  else if is_neg_zero a then b else a.

(** [Math.min(a, b)]: NaN when an argument is NaN, and -0 is smaller
    than +0. *)
Definition Math_min (a b : float) : float :=
  if PrimFloat.is_nan a || PrimFloat.is_nan b then PrimFloat.nan
  else if PrimFloat.ltb a b then a
  else if PrimFloat.ltb b a then b
  else if is_neg_zero a then a else b.

Definition Math_abs (a : float) : float := PrimFloat.abs a.

End Num.

(** ** Game constants *)

Definition GAME_WIDTH : float := 800.
Definition GAME_HEIGHT : float := 400.
Definition PADDLE_WIDTH : float := 10.
Definition PADDLE_HEIGHT : float := 80.
Definition BALL_SIZE : float := 10.
Definition PADDLE_SPEED : float := 5.
Definition BALL_SPEED : float := 4.

(** ** Game state *)

Record Ball := mkBall { x : float; y : float; dx : float; dy : float }.

Record Paddle := mkPaddle { py : float; playerId : option string }.

Record Paddles := mkPaddles { left : Paddle; right : Paddle }.

Record Score := mkScore { sleft : Z; sright : Z }.

(** [n++] on a JavaScript number that holds the integer [n]: the binary64
    sum [n + 1].  It is exact while [n + 1] is representable; from 2^53 on
    only every second integer is, [n + 1] lies half-way between [n] and
    [n + 2] and is rounded to the one with the even significand; from 2^54
    on it is rounded back to [n].  A counter that starts at 0 therefore
    stops at 2^53. *)
Definition increment (n : Z) : Z :=
  if (- 2 ^ 53 <=? n) && (n <? 2 ^ 53) then n + 1
  else if (Z.abs n <? 2 ^ 54) && Z.odd (n / 2) then n + 2
  else n.

(** The JavaScript number that holds the integer [n], for [n] of magnitude
    below 2^63. *)
Definition numberOf (n : Z) : float :=
  if n <? 0 then (- PrimFloat.of_uint63 (Uint63.of_Z (- n)))%float
  else PrimFloat.of_uint63 (Uint63.of_Z n).

Record GameState := mkGameState {
  ball : Ball;
  paddles : Paddles;
  score : Score;
  gameActive : bool;
  players : list string
}.

(** A room; [gameLoop] tells whether the interval handle is set, that is
    whether the 60 Hz timer of the room is running. *)
Record Room := mkRoom { id : string; gameState : GameState; gameLoop : bool }.

(** [Math.random() > 0.5 ? BALL_SPEED : -BALL_SPEED], the outcome of the
    comparison being the input [r]. *)
Definition randomSpeed (r : bool) : float :=
  if r then BALL_SPEED else (- BALL_SPEED)%float.

Definition createGameState (rx ry : bool) : GameState :=
  {| ball := {| x := (GAME_WIDTH / 2)%float;
                y := (GAME_HEIGHT / 2)%float;
                dx := randomSpeed rx;
                dy := randomSpeed ry |};
     paddles :=
       {| left := {| py := (GAME_HEIGHT / 2 - PADDLE_HEIGHT / 2)%float;
                     playerId := None |};
          right := {| py := (GAME_HEIGHT / 2 - PADDLE_HEIGHT / 2)%float;
                      playerId := None |} |};
     score := {| sleft := 0; sright := 0 |};
     gameActive := false;
     players := [] |}.

Definition set_ball (b : Ball) (gs : GameState) : GameState :=
  {| ball := b; paddles := paddles gs; score := score gs;
     gameActive := gameActive gs; players := players gs |}.

Definition set_score (s : Score) (gs : GameState) : GameState :=
  {| ball := ball gs; paddles := paddles gs; score := s;
     gameActive := gameActive gs; players := players gs |}.

Definition resetBall (rx ry : bool) (gs : GameState) : GameState :=
  set_ball {| x := (GAME_WIDTH / 2)%float;
              y := (GAME_HEIGHT / 2)%float;
              dx := randomSpeed rx;
              dy := randomSpeed ry |} gs.

(** *** The physics step, one stage per statement of [updateBall] *)

Definition moveBall (b : Ball) : Ball :=
  {| x := (x b + dx b)%float; y := (y b + dy b)%float;
     dx := dx b; dy := dy b |}.

Definition hitsWall (b : Ball) : bool :=
  PrimFloat.leb (y b) 0 || Num.geb (y b) (GAME_HEIGHT - BALL_SIZE)%float.

Definition wallBounce (b : Ball) : Ball :=
  if hitsWall b
  then {| x := x b; y := y b; dx := dx b; dy := (- dy b)%float |}
  else b.

(** The new vertical speed after a paddle hit, from where the ball struck a
    paddle whose top is at [p]. *)
Definition hitAngle (b : Ball) (p : float) : float :=
  let hitPos := ((y b - p) / PADDLE_HEIGHT)%float in
  ((hitPos - 0.5) * BALL_SPEED * 2)%float.

Definition hitsLeft (b : Ball) (p : float) : bool :=
  PrimFloat.leb (x b) PADDLE_WIDTH && Num.geb (y b) p
  && PrimFloat.leb (y b) (p + PADDLE_HEIGHT)%float.

Definition leftPaddleBounce (p : float) (b : Ball) : Ball :=
  if hitsLeft b p
  then {| x := x b; y := y b; dx := Num.Math_abs (dx b); dy := hitAngle b p |}
  else b.

Definition hitsRight (b : Ball) (p : float) : bool :=
  Num.geb (x b) (GAME_WIDTH - PADDLE_WIDTH - BALL_SIZE)%float && Num.geb (y b) p
  && PrimFloat.leb (y b) (p + PADDLE_HEIGHT)%float.

Definition rightPaddleBounce (p : float) (b : Ball) : Ball :=
  if hitsRight b p
  then {| x := x b; y := y b; dx := (- Num.Math_abs (dx b))%float;
          dy := hitAngle b p |}
  else b.

(** The ball after integration and the three collision tests, before the
    out-of-bounds test. *)
Definition collide (gs : GameState) : Ball :=
  rightPaddleBounce (py (right (paddles gs)))
    (leftPaddleBounce (py (left (paddles gs)))
       (wallBounce (moveBall (ball gs)))).

Definition updateBall (rx ry : bool) (gs : GameState) : GameState :=
  let gs1 := set_ball (collide gs) gs in
  if PrimFloat.ltb (x (ball gs1)) 0 then
    resetBall rx ry
      (set_score {| sleft := sleft (score gs1);
                    sright := increment (sright (score gs1)) |} gs1)
  else if Num.gtb (x (ball gs1)) GAME_WIDTH then
    resetBall rx ry
      (set_score {| sleft := increment (sleft (score gs1));
                    sright := sright (score gs1) |} gs1)
  else gs1.

(** ** Rooms, registries and outbound messages *)

Inductive Side := SLeft | SRight.

Inductive Direction := Up | Down.

Inductive Msg :=
| paddleAssignment (side : Side)
| gameStateMsg (gs : GameState)
| gameStart
| paddleUpdate (side : Side) (offset : float)
| playerDisconnected.

(** [socket.emit] reaches one connection, [io.to(roomId).emit] every
    connection of the room. *)
Inductive Emit :=
| ToSocket (c : string) (m : Msg)
| ToRoom (roomId : string) (m : Msg).

(** The two global registries: [rooms] by room identifier and the reverse
    index [playerRooms] from connection identifier to room identifier. *)
Record Server := mkServer {
  rooms : gmap string Room;
  playerRooms : gmap string string
}.

Definition initial : Server := {| rooms := ∅; playerRooms := ∅ |}.

(** JavaScript truthiness of a [string | null] and of a [string]. *)
Definition truthyStr (s : string) : bool := negb (String.eqb s "").

Definition truthy (o : option string) : bool :=
  match o with Some s => truthyStr s | None => false end.

(** [playerId === socket.id]. *)
Definition ownedBy (c : string) (p : Paddle) : bool :=
  bool_decide (playerId p = Some c).

Definition set_gameState (gs : GameState) (r : Room) : Room :=
  {| id := id r; gameState := gs; gameLoop := gameLoop r |}.

Definition set_gameLoop (b : bool) (r : Room) : Room :=
  {| id := id r; gameState := gameState r; gameLoop := b |}.

Definition set_paddles (ps : Paddles) (gs : GameState) : GameState :=
  {| ball := ball gs; paddles := ps; score := score gs;
     gameActive := gameActive gs; players := players gs |}.

Definition set_gameActive (b : bool) (gs : GameState) : GameState :=
  {| ball := ball gs; paddles := paddles gs; score := score gs;
     gameActive := b; players := players gs |}.

Definition set_players (l : list string) (gs : GameState) : GameState :=
  {| ball := ball gs; paddles := paddles gs; score := score gs;
     gameActive := gameActive gs; players := l |}.

Definition set_playerId (o : option string) (p : Paddle) : Paddle :=
  {| py := py p; playerId := o |}.

Definition set_py (v : float) (p : Paddle) : Paddle :=
  {| py := v; playerId := playerId p |}.

Definition set_left (p : Paddle) (ps : Paddles) : Paddles :=
  {| left := p; right := right ps |}.

Definition set_right (p : Paddle) (ps : Paddles) : Paddles :=
  {| left := left ps; right := p |}.

Definition paddleOf (side : Side) (ps : Paddles) : Paddle :=
  match side with SLeft => left ps | SRight => right ps end.

Definition set_paddle (side : Side) (p : Paddle) (ps : Paddles) : Paddles :=
  match side with SLeft => set_left p ps | SRight => set_right p ps end.

(** *** The timer

    [startGameLoop] stores the handle of a new interval in the room without
    clearing a handle already there: an interval overwritten that way would
    keep firing.  The boolean [gameLoop] has no room for that, so
    [startGameLoop] is faithful on a room whose timer does not run, which
    is how [joinGame], its only caller, finds the room after any sequence of
    events.  The interval's callback holds the room object itself; [tick]
    finds it through the registry, which agrees because [disconnect] stops
    the timer before it deletes the room. *)

Definition startGameLoop (roomId : string) (rs : gmap string Room)
  : gmap string Room :=
  match rs !! roomId with
  | None => rs
  | Some room => <[roomId := set_gameLoop true room]> rs
  end.

Definition stopGameLoop (roomId : string) (rs : gmap string Room)
  : gmap string Room :=
  match rs !! roomId with
  | Some room =>
      if gameLoop room then <[roomId := set_gameLoop false room]> rs else rs
  | None => rs
  end.

(** One firing of the interval installed by [startGameLoop]: the physics
    step, then the broadcast of the whole state. *)
Definition tick (roomId : string) (rx ry : bool) (s : Server)
  : Server * list Emit :=
  match rooms s !! roomId with
  | Some room =>
      if gameLoop room then
        let gs := updateBall rx ry (gameState room) in
        ({| rooms := <[roomId := set_gameState gs room]> (rooms s);
            playerRooms := playerRooms s |},
         [ToRoom roomId (gameStateMsg gs)])
      else (s, [])
  | None => (s, [])
  end.

(** *** [joinGame] *)

Definition room1 : string := "room1".

(** The paddle assignment of [joinGame]: the left slot when it is free,
    else the right slot when it is free, else none. *)
Definition assignPaddle (c : string) (gs : GameState)
  : GameState * list Emit :=
  let ps := paddles gs in
  if negb (truthy (playerId (left ps))) then
    (set_paddles (set_left (set_playerId (Some c) (left ps)) ps) gs,
     [ToSocket c (paddleAssignment SLeft)])
  else if negb (truthy (playerId (right ps))) then
    (set_paddles (set_right (set_playerId (Some c) (right ps)) ps) gs,
     [ToSocket c (paddleAssignment SRight)])
  else (gs, []).

Definition joinGame (c : string) (rx ry : bool) (s : Server)
  : Server * list Emit :=
  let roomId := room1 in
  let room :=
    match rooms s !! roomId with
    | Some room => room
    | None => {| id := roomId; gameState := createGameState rx ry;
                 gameLoop := false |}
    end in
  let index := <[c := roomId]> (playerRooms s) in
  let gs1 := set_players (players (gameState room) ++ [c]) (gameState room) in
  let '(gs2, out) := assignPaddle c gs1 in
  if Nat.eqb (length (players gs2)) 2 then
    let gs3 := set_gameActive true gs2 in
    ({| rooms := startGameLoop roomId
                   (<[roomId := set_gameState gs3 room]> (rooms s));
        playerRooms := index |},
     out ++ [ToRoom roomId gameStart; ToSocket c (gameStateMsg gs3)])
  else
    ({| rooms := <[roomId := set_gameState gs2 room]> (rooms s);
        playerRooms := index |},
     out ++ [ToSocket c (gameStateMsg gs2)]).

(** *** [paddleMove] *)

Definition movePaddle (direction : Direction) (v : float) : float :=
  match direction with
  | Up =>
      if Num.gtb v 0 then Num.Math_max 0 (v - PADDLE_SPEED)%float else v
  | Down =>
      if PrimFloat.ltb v (GAME_HEIGHT - PADDLE_HEIGHT)%float
      then Num.Math_min (GAME_HEIGHT - PADDLE_HEIGHT)%float
                        (v + PADDLE_SPEED)%float
      else v
  end.

(** The paddle a connection may move: the left one when it owns it, else
    the right one when it owns it. *)
Definition ownedSide (c : string) (ps : Paddles) : option Side :=
  if ownedBy c (left ps) then Some SLeft
  else if ownedBy c (right ps) then Some SRight
  else None.

Definition paddleMove (c : string) (direction : Direction) (s : Server)
  : Server * list Emit :=
  match playerRooms s !! c with
  | None => (s, [])
  | Some roomId =>
      if negb (truthyStr roomId) then (s, []) else
      match rooms s !! roomId with
      | None => (s, [])
      | Some room =>
          let ps := paddles (gameState room) in
          match ownedSide c ps with
          | None => (s, [])
          | Some side =>
              let paddle :=
                set_py (movePaddle direction (py (paddleOf side ps)))
                       (paddleOf side ps) in
              let ps' := set_paddle side paddle ps in
              let gs := set_paddles ps' (gameState room) in
              ({| rooms := <[roomId := set_gameState gs room]> (rooms s);
                  playerRooms := playerRooms s |},
               [ToRoom roomId
                  (paddleUpdate
                     (if ownedBy c (left ps') then SLeft else SRight)
                     (py paddle))])
          end
      end
  end.

(** *** [disconnect] *)

Definition vacate (c : string) (p : Paddle) : Paddle :=
  if ownedBy c p then set_playerId None p else p.

(** What [disconnect] does to the game state before it looks at the number
    of players left. *)
Definition leave (c : string) (gs : GameState) : GameState :=
  let gs1 :=
    set_players (List.filter (fun i => negb (String.eqb i c)) (players gs))
                gs in
  let ps := paddles gs1 in
  let ps1 := set_left (vacate c (left ps)) ps in
  let ps2 := set_right (vacate c (right ps1)) ps1 in
  set_paddles ps2 gs1.

Definition disconnect (c : string) (s : Server) : Server * list Emit :=
  match playerRooms s !! c with
  | None => (s, [])
  | Some roomId =>
      if negb (truthyStr roomId) then (s, []) else
      let '(rs, out) :=
        match rooms s !! roomId with
        | None => (rooms s, [])
        | Some room =>
            let gs := leave c (gameState room) in
            if Nat.eqb (length (players gs)) 0 then
              (delete roomId
                 (stopGameLoop roomId
                    (<[roomId := set_gameState gs room]> (rooms s))),
               [])
            else
              let gs' := set_gameActive false gs in
              (stopGameLoop roomId
                 (<[roomId := set_gameState gs' room]> (rooms s)),
               [ToRoom roomId playerDisconnected])
        end in
      ({| rooms := rs; playerRooms := delete c (playerRooms s) |}, out)
  end.

(** ** Runs of the server *)

Inductive Event :=
| JoinGame (c : string) (rx ry : bool)
| PaddleMove (c : string) (direction : Direction)
| Disconnect (c : string)
| Tick (roomId : string) (rx ry : bool).

Definition handle (e : Event) (s : Server) : Server * list Emit :=
  match e with
  | JoinGame c rx ry => joinGame c rx ry s
  | PaddleMove c d => paddleMove c d s
  | Disconnect c => disconnect c s
  | Tick roomId rx ry => tick roomId rx ry s
  end.

Definition step (e : Event) (s : Server) : Server := (handle e s).1.

Definition run (es : list Event) (s : Server) : Server :=
  fold_left (fun s e => step e s) es s.

Inductive reachable : Server -> Prop :=
| reach_initial : reachable initial
| reach_step e s : reachable s -> reachable (step e s).

(** ** The client

    The React component of the client keeps four pieces of state and reacts
    to the server's messages; a 30 Hz interval turns the pressed keys into
    [paddleMove] requests.  Rendering is left out. *)

Record Client := mkClient {
  view : option GameState;
  myPaddle : option Side;
  connectionStatus : string;
  gameStatus : string
}.

Definition initialClient : Client :=
  {| view := None; myPaddle := None;
     connectionStatus := "Disconnected";
     gameStatus := "Waiting for players..." |}.

Definition sideName (side : Side) : string :=
  match side with SLeft => "left" | SRight => "right" end.

(** The updater given to [setGameState] on a [paddleUpdate]: nothing
    without a state, else the state with the offset of the named paddle
    replaced. *)
Definition onPaddleUpdate (side : Side) (offset : float)
    (prevState : option GameState) : option GameState :=
  match prevState with
  | None => None
  | Some gs =>
      Some (set_paddles
              (set_paddle side (set_py offset (paddleOf side (paddles gs)))
                          (paddles gs)) gs)
  end.

(** The client's handler of each server message. *)
Definition clientOn (m : Msg) (cl : Client) : Client :=
  match m with
  | paddleAssignment side =>
      {| view := view cl; myPaddle := Some side;
         connectionStatus := connectionStatus cl;
         gameStatus := "You are the " +:+ sideName side +:+ " paddle" |}
  | gameStateMsg gs =>
      {| view := Some gs; myPaddle := myPaddle cl;
         connectionStatus := connectionStatus cl;
         gameStatus := gameStatus cl |}
  | paddleUpdate side offset =>
      {| view := onPaddleUpdate side offset (view cl);
         myPaddle := myPaddle cl;
         connectionStatus := connectionStatus cl;
         gameStatus := gameStatus cl |}
  | gameStart =>
      {| view := view cl; myPaddle := myPaddle cl;
         connectionStatus := connectionStatus cl;
         gameStatus := "Game Started!" |}
  | playerDisconnected =>
      {| view := view cl; myPaddle := myPaddle cl;
         connectionStatus := connectionStatus cl;
         gameStatus := "Player disconnected. Waiting for players..." |}
  end.

(** [handleKeyDown] and [handleKeyUp] on the set of pressed keys. *)
Definition handleKeyDown (key : string) (keys : gset string) : gset string :=
  {[key]} ∪ keys.

Definition handleKeyUp (key : string) (keys : gset string) : gset string :=
  keys ∖ {[key]}.

Definition pressed (key : string) (keys : gset string) : bool :=
  bool_decide (key ∈ keys).

(** One firing of the input interval: the requests it emits, in order.
    [connected] tells whether the socket reference is set. *)
Definition inputTick (connected : bool) (paddle : option Side)
    (keys : gset string) : list Direction :=
  if negb connected || negb (bool_decide (is_Some paddle)) then []
  else
    (if pressed "ArrowUp" keys || pressed "w" keys || pressed "W" keys
     then [Up] else [])
    ++ (if pressed "ArrowDown" keys || pressed "s" keys || pressed "S" keys
        then [Down] else []).

(** The messages of [out] that reach connection [c], a member of the
    socket.io room [roomId]. *)
Definition delivered (c roomId : string) (out : list Emit) : list Msg :=
  omap (fun e =>
          match e with
          | ToSocket c' m => if bool_decide (c' = c) then Some m else None
          | ToRoom r m => if bool_decide (r = roomId) then Some m else None
          end) out.

Definition receive (ms : list Msg) (cl : Client) : Client :=
  fold_left (fun cl m => clientOn m cl) ms cl.

(** * Derived notions

    The states of the worked examples, the handlers' effects in closed form
    and the predicates the statements below are written with. *)

(** The ball of the scenario, on the 800x400 board, with the right paddle
    spanning 160..240. *)
Definition scenario : GameState :=
  {| ball := {| x := 395; y := 200; dx := 4; dy := 4 |};
     paddles := {| left := {| py := 160; playerId := None |};
                   right := {| py := 160; playerId := None |} |};
     score := {| sleft := 0; sright := 0 |};
     gameActive := true;
     players := [] |}.

(** The same ball one paddle width and one ball size from the right edge,
    where the right paddle's trigger plane lies. *)
Definition scenarioAtEdge : GameState :=
  set_ball {| x := 795; y := 200; dx := 4; dy := 4 |} scenario.

(** The scenario as described: the ball bounces off the right paddle, flat. *)
Definition scenario_bounces_flat : Prop :=
  forall rx ry,
    let b := ball (updateBall rx ry scenario) in
    hitsRight (wallBounce (moveBall (ball scenario)))
              (py (right (paddles scenario))) = true
    /\ dx b = (-4)%float /\ dy b = 0%float.

Definition scoreLe (a b : Score) : Prop :=
  sleft a <= sleft b /\ sright a <= sright b.

Inductive PhysOp := OpUpdate (rx ry : bool) | OpReset (rx ry : bool).

Definition physOp (o : PhysOp) (gs : GameState) : GameState :=
  match o with
  | OpUpdate rx ry => updateBall rx ry gs
  | OpReset rx ry => resetBall rx ry gs
  end.

Definition physRun (os : list PhysOp) (gs : GameState) : GameState :=
  fold_left (fun gs o => physOp o gs) os gs.

(** [dx] is one of the two values a creation or a reset may draw. *)
Definition fullSpeed (v : float) : Prop :=
  v = BALL_SPEED \/ v = (- BALL_SPEED)%float.

(** The room [joinGame] works on: the registered one, or a new one. *)
Definition roomOrNew (rx ry : bool) (s : Server) : Room :=
  match rooms s !! room1 with
  | Some room => room
  | None => {| id := room1; gameState := createGameState rx ry;
               gameLoop := false |}
  end.

(** The game state [joinGame] leaves in the room. *)
Definition joined (c : string) (gs : GameState) : GameState :=
  let gs2 := (assignPaddle c (set_players (players gs ++ [c]) gs)).1 in
  if Nat.eqb (length (players gs2)) 2 then set_gameActive true gs2 else gs2.

Definition joinedRoom (c : string) (room : Room) : Room :=
  {| id := id room;
     gameState := joined c (gameState room);
     gameLoop := if Nat.eqb (length (players (joined c (gameState room)))) 2
                 then true else gameLoop room |}.

(** The room [disconnect] leaves behind when somebody remains in it. *)
Definition leftRoom (c : string) (room : Room) : Room :=
  {| id := id room;
     gameState := set_gameActive false (leave c (gameState room));
     gameLoop := false |}.

(** The paddles after a processed move of the paddle on [side]. *)
Definition movedPaddles (side : Side) (d : Direction) (ps : Paddles)
  : Paddles :=
  set_paddle side
    (set_py (movePaddle d (py (paddleOf side ps))) (paddleOf side ps)) ps.

(** The transitions the handlers perform on a registered room. *)
Inductive evolves : Room -> Room -> Prop :=
| ev_same room : evolves room room
| ev_join c room : evolves room (joinedRoom c room)
| ev_move side d room :
    evolves room
      (set_gameState
         (set_paddles (movedPaddles side d (paddles (gameState room)))
                      (gameState room)) room)
| ev_leave c room : evolves room (leftRoom c room)
| ev_tick rx ry room :
    evolves room (set_gameState (updateBall rx ry (gameState room)) room).

Definition newRoom (rx ry : bool) : Room :=
  {| id := room1; gameState := createGameState rx ry; gameLoop := false |}.

(** The offsets a paddle can take: 0, 5, ..., 320. *)
Definition grid : list float :=
  Eval vm_compute in
    List.map
      (fun k => (PrimFloat.of_uint63 (Uint63.of_nat k) * PADDLE_SPEED)%float)
      (seq 0 65).

Definition inBoard (v : float) : Prop :=
  PrimFloat.leb 0 v = true
  /\ PrimFloat.leb v (GAME_HEIGHT - PADDLE_HEIGHT)%float = true.

Definition paddlesOnGrid (room : Room) : Prop :=
  In (py (left (paddles (gameState room)))) grid
  /\ In (py (right (paddles (gameState room)))) grid.

(** A lone player whose paddle has been driven to the top of the board. *)
Definition atTop : Server :=
  run (JoinGame "A" true true :: repeat (PaddleMove "A" Up) 32) initial.

Definition otherSide (side : Side) : Side :=
  match side with SLeft => SRight | SRight => SLeft end.

(** Two players in a running game, the right one having moved down. *)
Definition midGame : Server :=
  run [JoinGame "A" true false; JoinGame "B" true true;
       PaddleMove "B" Down; Tick room1 true true] initial.

(** The state a first join leaves in a new room: the new game state with the
    joiner as the only player and as the owner of the left paddle. *)
Definition firstJoin (c : string) (rx ry : bool) : GameState :=
  set_players [c]
    (set_paddles
       {| left := {| py := 160; playerId := Some c |};
          right := {| py := 160; playerId := None |} |}
       (createGameState rx ry)).

(** A room that has seen a point scored and whose last player is "B". *)
Definition lastPlayer : Server :=
  run ([JoinGame "A" true true; JoinGame "B" false true]
       ++ repeat (Tick room1 true true) 300 ++ [Disconnect "A"]) initial.

(** A second join taken as a no-op. *)
Definition rejoin_absorbed : Prop :=
  forall s c rx ry room,
    reachable s ->
    playerRooms s !! c = Some room1 ->
    rooms s !! room1 = Some room ->
    c ∈ players (gameState room) ->
    let s' := (joinGame c rx ry s).1 in
    playerRooms s' = playerRooms s
    /\ exists room',
        rooms s' !! room1 = Some room'
        /\ players (gameState room') = players (gameState room)
        /\ playerId (left (paddles (gameState room')))
           = playerId (left (paddles (gameState room)))
        /\ playerId (right (paddles (gameState room')))
           = playerId (right (paddles (gameState room)))
        /\ gameActive (gameState room') = gameActive (gameState room).

Definition bothOwned (gs : GameState) : Prop :=
  playerId (left (paddles gs)) <> None /\ playerId (right (paddles gs)) <> None.

(** The flag taken as telling, in every reachable state, that both slots
    are owned. *)
Definition active_iff_both_owned : Prop :=
  forall s rid room,
    reachable s ->
    rooms s !! rid = Some room ->
    gameActive (gameState room) = true <-> bothOwned (gameState room).

(** Two players and a third connection, which gets no paddle; both players
    leave and a fourth connection joins. *)
Definition spectatorStays : list Event :=
  [JoinGame "A" true true; JoinGame "B" true true; JoinGame "C" true true;
   Disconnect "A"; Disconnect "B"; JoinGame "D" true true].

(** A join is orderly when it comes from a connection with a non-empty
    identifier and enters a room that has fewer than two players: no third
    connection.  The joiner may already be in the room. *)
Definition orderlyEvent (e : Event) (s : Server) : Prop :=
  match e with
  | JoinGame c _ _ =>
      c <> ""
      /\ forall room, rooms s !! room1 = Some room ->
                      (length (players (gameState room)) < 2)%nat
  | _ => True
  end.

Inductive orderly : Server -> Prop :=
| orderly_initial : orderly initial
| orderly_step e s : orderly s -> orderlyEvent e s -> orderly (step e s).

(** The rooms of orderly runs: one entry in the player list, its
    connection owning one slot of an inactive room; or two entries, of one
    connection or of two, each owning a slot of an active room. *)
Definition seated (l r : option string) (ps : list string) (act : bool)
  : Prop :=
  (exists a, a <> "" /\ ps = [a]
             /\ ((l = Some a /\ r = None) \/ (l = None /\ r = Some a))
             /\ act = false)
  \/ (exists a b, a <> "" /\ b <> ""
                  /\ l = Some a /\ r = Some b
                  /\ (ps = [a; b] \/ ps = [b; a])
                  /\ act = true).

Definition roomShape (gs : GameState) : Prop :=
  seated (playerId (left (paddles gs))) (playerId (right (paddles gs)))
         (players gs) (gameActive gs).

Definition without (c : string) (l : list string) : list string :=
  List.filter (fun i => negb (String.eqb i c)) l.

(** Moves and ticks leave the players, the owners and the flag alone. *)
Definition sameSeats (gs gs' : GameState) : Prop :=
  players gs' = players gs
  /\ playerId (left (paddles gs')) = playerId (left (paddles gs))
  /\ playerId (right (paddles gs')) = playerId (right (paddles gs))
  /\ gameActive gs' = gameActive gs.

Definition quiet (e : Event) : Prop :=
  match e with PaddleMove _ _ | Tick _ _ _ => True | _ => False end.

(** A ball about to leave on the left, and one about to leave on the right. *)
Definition leavingLeft : GameState :=
  set_ball {| x := 2; y := 100; dx := -4; dy := 4 |} scenario.

Definition leavingRight : GameState :=
  set_ball {| x := 799; y := 100; dx := 4; dy := 4 |} scenario.

(** A ball about to leave on the left when the right score is 2^53. *)
Definition fullScore : GameState :=
  set_score {| sleft := 0; sright := 2 ^ 53 |} leavingLeft.

(** A point taken as adding one to the score, whatever the score. *)
Definition scoring_always_adds_one : Prop :=
  forall rx ry gs,
    PrimFloat.ltb (x (ball gs) + dx (ball gs))%float 0 = true ->
    score (updateBall rx ry gs)
    = {| sleft := sleft (score gs); sright := sright (score gs) + 1 |}.

(** [startGameLoop] overwrites the handle of the room.  It never overwrites
    the handle of a running timer: a room whose timer runs has at least two
    players, and [joinGame] starts the timer only when the join brings the
    room to exactly two. *)
Definition loopNeedsTwo (room : Room) : Prop :=
  gameLoop room = true -> (2 <= length (players (gameState room)))%nat.

(** ** Notions of the further properties *)

(** The registries agree: rooms live under [room1] only and are never
    empty, and the reverse index lists exactly the players of the room. *)
Record registryInv (s : Server) : Prop := {
  reg_only_room1 : forall rid room, rooms s !! rid = Some room -> rid = room1;
  reg_nonempty : forall rid room,
      rooms s !! rid = Some room -> players (gameState room) <> [];
  reg_index_room : forall c rid,
      playerRooms s !! c = Some rid ->
      rid = room1
      /\ exists room, rooms s !! room1 = Some room
                      /\ c ∈ players (gameState room);
  reg_players_index : forall room c,
      rooms s !! room1 = Some room -> c ∈ players (gameState room) ->
      playerRooms s !! c = Some room1
}.

(** Every paddle owner is a player of the room. *)
Definition ownersPlay (room : Room) : Prop :=
  forall side c,
    playerId (paddleOf side (paddles (gameState room))) = Some c ->
    c ∈ players (gameState room).

(** The timer runs exactly in active rooms, which list two players at
    least. *)
Definition loopIsActive (room : Room) : Prop :=
  gameLoop room = gameActive (gameState room)
  /\ (gameActive (gameState room) = true ->
      (2 <= length (players (gameState room)))%nat).

(** The horizontal positions a ball can rest at: 0, 4, ..., 800. *)
Definition xgrid : list float :=
  Eval vm_compute in
    List.map
      (fun k => (PrimFloat.of_uint63 (Uint63.of_nat k) * BALL_SPEED)%float)
      (seq 0 201).

Definition onXgrid (v : float) : bool :=
  existsb (fun g => PrimFloat.Leibniz.eqb g v) xgrid.

Definition ballOnBoard (room : Room) : Prop :=
  fullSpeed (dx (ball (gameState room)))
  /\ In (x (ball (gameState room))) xgrid.

Definition scoresFromZero (room : Room) : Prop :=
  0 <= sleft (score (gameState room)) /\ 0 <= sright (score (gameState room)).

(** * Properties *)

(** ** Physics: the worked scenario *)

(** At x = 399 the ball is far from the right paddle: no bounce. *)
Lemma scenario_no_bounce : ~ scenario_bounces_flat.
Proof.
  intros H. destruct (H true true) as [Hhit _].
  vm_compute in Hhit. discriminate Hhit.
Qed.

(** C3 (as the code has it): from x=395, y=200, dx=4, dy=4 one physics step
    does not reach the right paddle, whose trigger plane is at x = 780: the
    ball only moves to (399, 204) and keeps dx = 4 and dy = 4.  From x=795 it
    does bounce off the right paddle: dx becomes -4 and dy is recomputed from
    the position after the move, (204 - 160) / 80 = 0.55, which gives
    0.40000000000000036 in binary64 and not 0. *)
Theorem scenario_step :
  forall rx ry,
    (hitsRight (wallBounce (moveBall (ball scenario)))
               (py (right (paddles scenario))) = false
     /\ ball (updateBall rx ry scenario)
        = {| x := 399; y := 204; dx := 4; dy := 4 |})
    /\
    (hitsRight (wallBounce (moveBall (ball scenarioAtEdge)))
               (py (right (paddles scenarioAtEdge))) = true
     /\ ball (updateBall rx ry scenarioAtEdge)
        = {| x := 799; y := 204; dx := -4; dy := 0x1.99999999999ap-2 |}
     /\ PrimFloat.eqb (dy (ball (updateBall rx ry scenarioAtEdge))) 0 = false).
Proof.
  intros rx ry. repeat split; destruct rx, ry; vm_compute; reflexivity.
Qed.

(** ** Physics: frame and scoring *)

Lemma x_wallBounce b : x (wallBounce b) = x b.
Proof. unfold wallBounce. destruct (hitsWall b); reflexivity. Qed.

Lemma x_leftPaddleBounce p b : x (leftPaddleBounce p b) = x b.
Proof. unfold leftPaddleBounce. destruct (hitsLeft b p); reflexivity. Qed.

Lemma x_rightPaddleBounce p b : x (rightPaddleBounce p b) = x b.
Proof. unfold rightPaddleBounce. destruct (hitsRight b p); reflexivity. Qed.

(** No collision test touches the horizontal position: at the out-of-bounds
    test it is the one the integration produced. *)
Lemma x_collide gs : x (collide gs) = (x (ball gs) + dx (ball gs))%float.
Proof.
  unfold collide.
  rewrite x_rightPaddleBounce, x_leftPaddleBounce, x_wallBounce.
  reflexivity.
Qed.

(** A binary64 value above the board width is not below zero. *)
Lemma beyond_width_not_negative v :
  Num.gtb v GAME_WIDTH = true -> PrimFloat.ltb v 0 = false.
Proof.
  unfold Num.gtb. rewrite !ltb_spec.
  replace (Prim2SF GAME_WIDTH) with (S754_finite false 7036874417766400 (-43))
    by (vm_compute; reflexivity).
  replace (Prim2SF 0) with (S754_zero false) by (vm_compute; reflexivity).
  destruct (Prim2SF v) as [s | s | | s m e]; try destruct s;
    cbn; congruence.
Qed.

#[local] Instance scoreLe_refl : Reflexive scoreLe.
Proof. intros a. unfold scoreLe. lia. Qed.

Lemma updateBall_cases rx ry gs :
  let gs1 := set_ball (collide gs) gs in
  (PrimFloat.ltb (x (collide gs)) 0 = true
   /\ updateBall rx ry gs
      = resetBall rx ry
          (set_score {| sleft := sleft (score gs);
                        sright := increment (sright (score gs)) |} gs1))
  \/ (PrimFloat.ltb (x (collide gs)) 0 = false
      /\ Num.gtb (x (collide gs)) GAME_WIDTH = true
      /\ updateBall rx ry gs
         = resetBall rx ry
             (set_score {| sleft := increment (sleft (score gs));
                           sright := sright (score gs) |} gs1))
  \/ (PrimFloat.ltb (x (collide gs)) 0 = false
      /\ Num.gtb (x (collide gs)) GAME_WIDTH = false
      /\ updateBall rx ry gs = gs1).
Proof.
  cbv zeta. unfold updateBall. cbv zeta.
  change (ball (set_ball (collide gs) gs)) with (collide gs).
  change (score (set_ball (collide gs) gs)) with (score gs).
  destruct (PrimFloat.ltb (x (collide gs)) 0); [left; done |].
  destruct (Num.gtb (x (collide gs)) GAME_WIDTH); right; [left | right]; done.
Qed.

Lemma increment_le n : n <= increment n.
Proof.
  unfold increment.
  destruct (_ && _); [lia |]. destruct (_ && _); lia.
Qed.

Lemma increment_exact n : - 2 ^ 53 <= n < 2 ^ 53 -> increment n = n + 1.
Proof.
  intros [Hlo Hhi]. unfold increment.
  apply Z.leb_le in Hlo. apply Z.ltb_lt in Hhi. rewrite Hlo, Hhi. reflexivity.
Qed.

(** [increment] against the binary64 sum, at the ends of each range. *)
Lemma increment_is_binary64 :
  Forall (fun n => (numberOf n + 1)%float = numberOf (increment n))
         [0; 1; 2 ^ 53 - 1; 2 ^ 53; 2 ^ 53 + 2; 2 ^ 53 + 4; 2 ^ 54 - 2;
          2 ^ 54; 2 ^ 54 + 4; 2 ^ 62; -1; - 2 ^ 53; - 2 ^ 53 - 2;
          - 2 ^ 53 - 4; - 2 ^ 54 + 2; - 2 ^ 54; - 2 ^ 54 - 4].
Proof. repeat constructor. Qed.

Lemma updateBall_score_mono rx ry gs :
  scoreLe (score gs) (score (updateBall rx ry gs)).
Proof.
  destruct (updateBall_cases rx ry gs)
    as [[_ ->] | [(_ & _ & ->) | (_ & _ & ->)]];
    unfold scoreLe; cbn [score resetBall set_ball set_score sleft sright];
    split; try lia; apply increment_le.
Qed.

Lemma updateBall_keeps rx ry gs :
  paddles (updateBall rx ry gs) = paddles gs
  /\ players (updateBall rx ry gs) = players gs
  /\ gameActive (updateBall rx ry gs) = gameActive gs.
Proof.
  destruct (updateBall_cases rx ry gs)
    as [[_ ->] | [(_ & _ & ->) | (_ & _ & ->)]]; done.
Qed.

(** C9: one physics step changes the ball and the score only; the paddle
    offsets, the paddle owners, the player list and the active flag are the
    ones it was given. *)
Theorem updateBall_frame :
  forall rx ry gs,
    py (left (paddles (updateBall rx ry gs))) = py (left (paddles gs))
    /\ py (right (paddles (updateBall rx ry gs))) = py (right (paddles gs))
    /\ playerId (left (paddles (updateBall rx ry gs)))
       = playerId (left (paddles gs))
    /\ playerId (right (paddles (updateBall rx ry gs)))
       = playerId (right (paddles gs))
    /\ players (updateBall rx ry gs) = players gs
    /\ gameActive (updateBall rx ry gs) = gameActive gs.
Proof.
  intros rx ry gs.
  destruct (updateBall_keeps rx ry gs) as (-> & -> & ->). done.
Qed.

(** ** Physics: the horizontal speed *)

Lemma fullSpeed_random r : fullSpeed (randomSpeed r).
Proof. destruct r; [left | right]; reflexivity. Qed.

Lemma fullSpeed_abs v : fullSpeed v -> Num.Math_abs v = BALL_SPEED.
Proof. intros [-> | ->]; reflexivity. Qed.

Lemma fullSpeed_opp_abs v :
  fullSpeed v -> (- Num.Math_abs v)%float = (- BALL_SPEED)%float.
Proof. intros H. rewrite (fullSpeed_abs v H). reflexivity. Qed.

Lemma dx_wallBounce b : dx (wallBounce b) = dx b.
Proof. unfold wallBounce. destruct (hitsWall b); reflexivity. Qed.

Lemma dx_leftPaddleBounce p b :
  fullSpeed (dx b) -> fullSpeed (dx (leftPaddleBounce p b)).
Proof.
  intros H. unfold leftPaddleBounce. destruct (hitsLeft b p); [| exact H].
  left. apply fullSpeed_abs, H.
Qed.

Lemma dx_rightPaddleBounce p b :
  fullSpeed (dx b) -> fullSpeed (dx (rightPaddleBounce p b)).
Proof.
  intros H. unfold rightPaddleBounce. destruct (hitsRight b p); [| exact H].
  right. apply fullSpeed_opp_abs, H.
Qed.

Lemma dx_collide gs : fullSpeed (dx (ball gs)) -> fullSpeed (dx (collide gs)).
Proof.
  intros H. unfold collide.
  apply dx_rightPaddleBounce, dx_leftPaddleBounce.
  rewrite dx_wallBounce. exact H.
Qed.

Lemma dx_physOp o gs :
  fullSpeed (dx (ball gs)) -> fullSpeed (dx (ball (physOp o gs))).
Proof.
  intros H. destruct o as [rx ry | rx ry]; cbn [physOp].
  - destruct (updateBall_cases rx ry gs)
      as [[_ ->] | [(_ & _ & ->) | (_ & _ & ->)]]; cbn.
    + apply fullSpeed_random.
    + apply fullSpeed_random.
    + apply dx_collide, H.
  - apply fullSpeed_random.
Qed.

Lemma dx_physRun os : forall gs,
  fullSpeed (dx (ball gs)) -> fullSpeed (dx (ball (physRun os gs))).
Proof.
  induction os as [| o os IH]; intros gs H; cbn; [exact H |].
  apply IH, dx_physOp, H.
Qed.

(** C8: after any sequence of physics steps and resets from a new game
    state, the magnitude of [dx] is the ball speed. *)
Theorem dx_magnitude :
  forall rx ry os,
    Num.Math_abs (dx (ball (physRun os (createGameState rx ry)))) = BALL_SPEED.
Proof.
  intros rx ry os. apply fullSpeed_abs, dx_physRun. apply fullSpeed_random.
Qed.

(** ** The handlers in closed form *)

Lemma players_assignPaddle c gs :
  players (assignPaddle c gs).1 = players gs.
Proof.
  unfold assignPaddle.
  destruct (negb (truthy (playerId (left (paddles gs))))); [reflexivity |].
  destruct (negb (truthy (playerId (right (paddles gs))))); reflexivity.
Qed.

Lemma players_joined c gs : players (joined c gs) = players gs ++ [c].
Proof.
  unfold joined. cbv zeta.
  destruct (Nat.eqb _ 2); cbn [players set_gameActive];
    rewrite players_assignPaddle; reflexivity.
Qed.

Lemma joinGame_rooms c rx ry s :
  rooms (joinGame c rx ry s).1
  = <[room1 := joinedRoom c (roomOrNew rx ry s)]> (rooms s).
Proof.
  unfold joinGame, joinedRoom, joined. cbv zeta. fold (roomOrNew rx ry s).
  destruct (assignPaddle c _) as [gs2 out] eqn:Ha. cbn [fst].
  destruct (Nat.eqb (length (players gs2)) 2) eqn:Hn; cbn [fst rooms].
  - unfold startGameLoop. rewrite lookup_insert_eq, insert_insert_eq.
    cbn [players set_gameActive]. rewrite Hn. reflexivity.
  - rewrite Hn. destruct (roomOrNew rx ry s); reflexivity.
Qed.

Lemma joinGame_index c rx ry s :
  playerRooms (joinGame c rx ry s).1 = <[c := room1]> (playerRooms s).
Proof.
  unfold joinGame. cbv zeta. destruct (assignPaddle c _) as [gs2 out].
  destruct (Nat.eqb (length (players gs2)) 2); reflexivity.
Qed.

Lemma disconnect_rooms c s roomId room :
  playerRooms s !! c = Some roomId ->
  truthyStr roomId = true ->
  rooms s !! roomId = Some room ->
  rooms (disconnect c s).1
  = if Nat.eqb (length (players (leave c (gameState room)))) 0
    then delete roomId (rooms s)
    else <[roomId := leftRoom c room]> (rooms s).
Proof.
  intros Hi Ht Hr. unfold disconnect. rewrite Hi, Ht, Hr. cbn [negb].
  destruct (Nat.eqb _ 0); cbn [fst rooms]; unfold stopGameLoop;
    rewrite lookup_insert_eq; cbn [gameLoop set_gameState];
    destruct (gameLoop room) eqn:Hl.
  - rewrite insert_insert_eq, delete_insert_eq. reflexivity.
  - rewrite delete_insert_eq. reflexivity.
  - rewrite insert_insert_eq. reflexivity.
  - unfold leftRoom. rewrite <- Hl. destruct room; reflexivity.
Qed.

Lemma disconnect_out c s roomId room :
  playerRooms s !! c = Some roomId ->
  truthyStr roomId = true ->
  rooms s !! roomId = Some room ->
  (disconnect c s).2
  = if Nat.eqb (length (players (leave c (gameState room)))) 0
    then [] else [ToRoom roomId playerDisconnected].
Proof.
  intros Hi Ht Hr. unfold disconnect. rewrite Hi, Ht, Hr. cbn [negb].
  destruct (Nat.eqb _ 0); reflexivity.
Qed.

Lemma disconnect_index c s roomId :
  playerRooms s !! c = Some roomId ->
  truthyStr roomId = true ->
  playerRooms (disconnect c s).1 = delete c (playerRooms s).
Proof.
  intros Hi Ht. unfold disconnect. rewrite Hi, Ht. cbn [negb].
  destruct (rooms s !! roomId) as [room |]; [| reflexivity].
  destruct (Nat.eqb _ 0); reflexivity.
Qed.

Lemma disconnect_unregistered c s :
  playerRooms s !! c = None -> disconnect c s = (s, []).
Proof. intros Hi. unfold disconnect. rewrite Hi. reflexivity. Qed.

Lemma paddleMove_owner c d s roomId room side :
  playerRooms s !! c = Some roomId ->
  truthyStr roomId = true ->
  rooms s !! roomId = Some room ->
  ownedSide c (paddles (gameState room)) = Some side ->
  paddleMove c d s
  = ({| rooms :=
          <[roomId :=
              set_gameState
                (set_paddles (movedPaddles side d (paddles (gameState room)))
                             (gameState room)) room]> (rooms s);
        playerRooms := playerRooms s |},
     [ToRoom roomId
        (paddleUpdate side
           (movePaddle d (py (paddleOf side (paddles (gameState room))))))]).
Proof.
  intros Hi Ht Hr Ho. unfold paddleMove. rewrite Hi, Ht, Hr, Ho. cbn [negb].
  unfold movedPaddles. do 4 f_equal.
  unfold ownedSide in Ho.
  destruct (ownedBy c (left (paddles (gameState room)))) eqn:Hl.
  - injection Ho as <-. cbn. unfold ownedBy in *. cbn. rewrite Hl. reflexivity.
  - destruct (ownedBy c (right (paddles (gameState room)))); [| discriminate].
    injection Ho as <-. cbn. unfold ownedBy in *. cbn. rewrite Hl. reflexivity.
Qed.

Lemma paddleMove_no_owner c d s roomId room :
  playerRooms s !! c = Some roomId ->
  rooms s !! roomId = Some room ->
  ownedSide c (paddles (gameState room)) = None ->
  paddleMove c d s = (s, []).
Proof.
  intros Hi Hr Ho. unfold paddleMove. rewrite Hi, Hr, Ho.
  destruct (negb (truthyStr roomId)); reflexivity.
Qed.

(** ** What one event does to a room *)

(** A room registered after an event was registered before it and evolved,
    or is the new room of a first join. *)
Lemma step_room e s rid room' :
  rooms (step e s) !! rid = Some room' ->
  (exists room, rooms s !! rid = Some room /\ evolves room room')
  \/ (rooms s !! rid = None
      /\ exists c rx ry, room' = joinedRoom c (newRoom rx ry)).
Proof.
  destruct e as [c rx ry | c d | c | roomId rx ry]; unfold step; cbn [handle].
  - rewrite joinGame_rooms. unfold roomOrNew.
    destruct (decide (rid = room1)) as [-> | Hne].
    + rewrite lookup_insert_eq. intros [= <-].
      destruct (rooms s !! room1) as [room |] eqn:Hr.
      * left. exists room. split; [reflexivity | apply ev_join].
      * right. split; [reflexivity |]. exists c, rx, ry. reflexivity.
    + rewrite lookup_insert_ne by congruence. intros H.
      left. exists room'. split; [exact H | apply ev_same].
  - unfold paddleMove.
    destruct (playerRooms s !! c) as [roomId |];
      [| intros H; left; exists room'; split; [exact H | apply ev_same]].
    destruct (negb (truthyStr roomId));
      [intros H; left; exists room'; split; [exact H | apply ev_same] |].
    destruct (rooms s !! roomId) as [room |] eqn:Hr;
      [| intros H; left; exists room'; split; [exact H | apply ev_same]].
    destruct (ownedSide c (paddles (gameState room))) as [side |];
      [| intros H; left; exists room'; split; [exact H | apply ev_same]].
    cbn [fst rooms].
    destruct (decide (rid = roomId)) as [-> | Hne].
    + rewrite lookup_insert_eq. intros [= <-].
      left. exists room. split; [exact Hr | apply ev_move].
    + rewrite lookup_insert_ne by congruence. intros H.
      left. exists room'. split; [exact H | apply ev_same].
  - destruct (playerRooms s !! c) as [roomId |] eqn:Hi;
      [| rewrite disconnect_unregistered by exact Hi; intros H; left;
         exists room'; split; [exact H | apply ev_same]].
    destruct (truthyStr roomId) eqn:Ht;
      [| unfold disconnect; rewrite Hi, Ht; intros H; left;
         exists room'; split; [exact H | apply ev_same]].
    destruct (rooms s !! roomId) as [room |] eqn:Hr;
      [| unfold disconnect; rewrite Hi, Ht, Hr; intros H; left;
         exists room'; split; [exact H | apply ev_same]].
    rewrite (disconnect_rooms c s roomId room Hi Ht Hr).
    destruct (Nat.eqb _ 0).
    + destruct (decide (rid = roomId)) as [-> | Hne].
      * rewrite lookup_delete_eq. discriminate.
      * rewrite lookup_delete_ne by congruence. intros H.
        left. exists room'. split; [exact H | apply ev_same].
    + destruct (decide (rid = roomId)) as [-> | Hne].
      * rewrite lookup_insert_eq. intros [= <-].
        left. exists room. split; [exact Hr | apply ev_leave].
      * rewrite lookup_insert_ne by congruence. intros H.
        left. exists room'. split; [exact H | apply ev_same].
  - unfold tick.
    destruct (rooms s !! roomId) as [room |] eqn:Hr;
      [| intros H; left; exists room'; split; [exact H | apply ev_same]].
    destruct (gameLoop room);
      [| intros H; left; exists room'; split; [exact H | apply ev_same]].
    cbn [fst rooms].
    destruct (decide (rid = roomId)) as [-> | Hne].
    + rewrite lookup_insert_eq. intros [= <-].
      left. exists room. split; [exact Hr | apply ev_tick].
    + rewrite lookup_insert_ne by congruence. intros H.
      left. exists room'. split; [exact H | apply ev_same].
Qed.

Lemma reachable_run es : forall s, reachable s -> reachable (run es s).
Proof.
  induction es as [| e es IH]; intros s H; cbn; [exact H |].
  apply IH, reach_step, H.
Qed.

(** A property of rooms that holds of a new room after its first join and
    that every transition keeps holds of every room of a reachable server. *)
Lemma reachable_rooms (P : Room -> Prop) :
  (forall c rx ry, P (joinedRoom c (newRoom rx ry))) ->
  (forall room room', evolves room room' -> P room -> P room') ->
  forall s, reachable s ->
  forall rid room, rooms s !! rid = Some room -> P room.
Proof.
  intros Hnew Hkeep s Hs.
  induction Hs as [| e s Hs IH]; intros rid room' Hr.
  - cbn in Hr. rewrite lookup_empty in Hr. discriminate.
  - destruct (step_room e s rid room' Hr)
      as [(room & Hr0 & Hev) | (_ & c & rx & ry & ->)].
    + eapply Hkeep; [exact Hev | eapply IH, Hr0].
    + apply Hnew.
Qed.

(** ** Paddles stay on the board *)

Ltac find_on_grid :=
  unfold grid, In; repeat (first [left; reflexivity | right]).

Lemma movePaddle_grid d v : In v grid -> In (movePaddle d v) grid.
Proof.
  intros H. unfold grid, In in H.
  repeat (destruct H as [<- | H];
          [destruct d;
           match goal with
           | |- In ?t grid =>
               let r := eval vm_compute in t in change (In r grid)
           end; find_on_grid |]).
  destruct H.
Qed.

Lemma grid_inBoard v : In v grid -> inBoard v.
Proof.
  intros H. unfold grid, In in H.
  repeat (destruct H as [<- | H]; [split; vm_compute; reflexivity |]).
  destruct H.
Qed.

Lemma py_assignPaddle c gs :
  py (left (paddles (assignPaddle c gs).1)) = py (left (paddles gs))
  /\ py (right (paddles (assignPaddle c gs).1)) = py (right (paddles gs)).
Proof.
  unfold assignPaddle. cbv zeta.
  destruct (negb (truthy (playerId (left (paddles gs))))); [done |].
  destruct (negb (truthy (playerId (right (paddles gs))))); done.
Qed.

Lemma py_joined c gs :
  py (left (paddles (joined c gs))) = py (left (paddles gs))
  /\ py (right (paddles (joined c gs))) = py (right (paddles gs)).
Proof.
  unfold joined. cbv zeta.
  destruct (Nat.eqb _ 2); cbn [paddles set_gameActive];
    apply (py_assignPaddle c (set_players _ gs)).
Qed.

Lemma py_leave c gs :
  py (left (paddles (leave c gs))) = py (left (paddles gs))
  /\ py (right (paddles (leave c gs))) = py (right (paddles gs)).
Proof.
  unfold leave, vacate. cbn.
  destruct (ownedBy c (left (paddles gs))),
           (ownedBy c (right (paddles gs))); done.
Qed.

Lemma evolves_grid room room' :
  evolves room room' -> paddlesOnGrid room -> paddlesOnGrid room'.
Proof.
  unfold paddlesOnGrid.
  intros [r | c r | side d r | c r | rx ry r] [Hl Hr];
    cbn [gameState joinedRoom leftRoom set_gameState].
  - done.
  - destruct (py_joined c (gameState r)) as [-> ->]. done.
  - destruct side; unfold movedPaddles;
      cbn [paddles set_paddles set_paddle paddleOf set_left set_right
           left right py set_py];
      split; auto using movePaddle_grid.
  - cbn [paddles set_gameActive].
    destruct (py_leave c (gameState r)) as [-> ->]. done.
  - destruct (updateBall_keeps rx ry (gameState r)) as (-> & _). done.
Qed.

Lemma new_room_grid c rx ry :
  paddlesOnGrid (joinedRoom c (newRoom rx ry)).
Proof.
  unfold paddlesOnGrid. cbn [gameState joinedRoom newRoom].
  destruct (py_joined c (createGameState rx ry)) as [-> ->].
  split; vm_compute; do 32 right; left; reflexivity.
Qed.

(** C5: whatever the clients send, in whatever order, both paddles of every
    room stay within 0 and the board height minus the paddle height. *)
Theorem paddles_bounded :
  forall es rid room,
    rooms (run es initial) !! rid = Some room ->
    inBoard (py (left (paddles (gameState room))))
    /\ inBoard (py (right (paddles (gameState room)))).
Proof.
  intros es rid room Hr.
  assert (paddlesOnGrid room) as [Hl Hrt].
  { eapply (reachable_rooms paddlesOnGrid).
    - apply new_room_grid.
    - apply evolves_grid.
    - apply (reachable_run es), reach_initial.
    - exact Hr. }
  split; apply grid_inBoard; assumption.
Qed.

Lemma paddles_bounded_after_moves :
  let es := JoinGame "A" true true :: repeat (PaddleMove "A" Down) 40 in
  exists room,
    rooms (run es initial) !! room1 = Some room
    /\ py (left (paddles (gameState room))) = 320%float
    /\ inBoard (py (left (paddles (gameState room))))
    /\ inBoard (py (right (paddles (gameState room)))).
Proof.
  intros es. exists (roomOrNew true true (run es initial)).
  split; [vm_compute; reflexivity |]. split; [vm_compute; reflexivity |].
  apply (paddles_bounded es room1). vm_compute. reflexivity.
Defined.

(** *** Scores *)

Lemma score_assignPaddle c gs : score (assignPaddle c gs).1 = score gs.
Proof.
  unfold assignPaddle. cbv zeta.
  destruct (negb (truthy (playerId (left (paddles gs))))); [done |].
  destruct (negb (truthy (playerId (right (paddles gs))))); done.
Qed.

Lemma score_joined c gs : score (joined c gs) = score gs.
Proof.
  unfold joined. cbv zeta.
  destruct (Nat.eqb _ 2); cbn [score set_gameActive];
    apply (score_assignPaddle c (set_players _ gs)).
Qed.

Lemma evolves_score room room' :
  evolves room room' ->
  scoreLe (score (gameState room)) (score (gameState room')).
Proof.
  intros [r | c r | side d r | c r | rx ry r];
    cbn [gameState joinedRoom leftRoom set_gameState].
  - reflexivity.
  - rewrite score_joined. reflexivity.
  - reflexivity.
  - reflexivity.
  - apply updateBall_score_mono.
Qed.

(** At a right score of 2^53 a ball leaves on the left: the point is lost,
    2^53 + 1 is rounded back to 2^53. *)
Lemma score_stops_at_2_53 : ~ scoring_always_adds_one.
Proof.
  intros H. specialize (H true true fullScore eq_refl).
  vm_compute in H. discriminate H.
Qed.

(** C4 (as the code has it): a ball whose x after integration is negative
    is reset and leaves the left score alone, and a right score from -2^53
    up to 2^53 - 1 grows by exactly one, while a right score of 2^53 stays
    2^53; a ball beyond the board width does the same with the sides
    exchanged; a reset puts the ball at (400, 200) with dx and dy each plus
    or minus the ball speed, the two signs drawn separately; no event makes
    a score of a registered room smaller. *)
Theorem scoring_and_reset :
  (forall rx ry gs,
     PrimFloat.ltb (x (ball gs) + dx (ball gs))%float 0 = true ->
     ball (updateBall rx ry gs) = ball (resetBall rx ry gs)
     /\ sleft (score (updateBall rx ry gs)) = sleft (score gs)
     /\ (- 2 ^ 53 <= sright (score gs) < 2 ^ 53 ->
         sright (score (updateBall rx ry gs)) = sright (score gs) + 1)
     /\ (sright (score gs) = 2 ^ 53 ->
         sright (score (updateBall rx ry gs)) = 2 ^ 53))
  /\ (forall rx ry gs,
        Num.gtb (x (ball gs) + dx (ball gs))%float GAME_WIDTH = true ->
        ball (updateBall rx ry gs) = ball (resetBall rx ry gs)
        /\ sright (score (updateBall rx ry gs)) = sright (score gs)
        /\ (- 2 ^ 53 <= sleft (score gs) < 2 ^ 53 ->
            sleft (score (updateBall rx ry gs)) = sleft (score gs) + 1)
        /\ (sleft (score gs) = 2 ^ 53 ->
            sleft (score (updateBall rx ry gs)) = 2 ^ 53))
  /\ (forall rx ry gs,
        ball (resetBall rx ry gs)
        = {| x := 400; y := 200;
             dx := if rx then BALL_SPEED else (- BALL_SPEED)%float;
             dy := if ry then BALL_SPEED else (- BALL_SPEED)%float |}
        /\ Num.Math_abs (dx (ball (resetBall rx ry gs))) = BALL_SPEED
        /\ Num.Math_abs (dy (ball (resetBall rx ry gs))) = BALL_SPEED
        /\ score (resetBall rx ry gs) = score gs)
  /\ (forall rx ry gs, scoreLe (score gs) (score (updateBall rx ry gs)))
  /\ (forall e s rid room room',
        rooms s !! rid = Some room ->
        rooms (step e s) !! rid = Some room' ->
        scoreLe (score (gameState room)) (score (gameState room'))).
Proof.
  repeat apply conj.
  - intros rx ry gs Hx. rewrite <- x_collide in Hx.
    destruct (updateBall_cases rx ry gs)
      as [[_ ->] | [(Hc & _ & _) | (Hc & _ & _)]]; [| congruence ..].
    cbn [ball score resetBall set_ball set_score sleft sright].
    repeat split.
    + apply increment_exact.
    + intros ->. reflexivity.
  - intros rx ry gs Hx. rewrite <- x_collide in Hx.
    pose proof (beyond_width_not_negative _ Hx) as Hn.
    destruct (updateBall_cases rx ry gs)
      as [[Hc _] | [(_ & _ & ->) | (_ & Hc & _)]]; [congruence | | congruence].
    cbn [ball score resetBall set_ball set_score sleft sright].
    repeat split.
    + apply increment_exact.
    + intros ->. reflexivity.
  - intros rx ry gs. repeat split; destruct rx, ry; reflexivity.
  - intros rx ry gs. apply updateBall_score_mono.
  - intros e s rid room room' Hr Hr'.
    destruct (step_room e s rid room' Hr')
      as [(room0 & Hr0 & Hev) | (Hnone & _)]; [| congruence].
    assert (room0 = room) as -> by congruence.
    apply evolves_score, Hev.
Qed.

Lemma scoring_and_reset_at_edges :
  (ball (updateBall true false leavingLeft)
   = {| x := 400; y := 200; dx := 4; dy := -4 |}
   /\ sleft (score (updateBall true false leavingLeft)) = 0
   /\ sright (score (updateBall true false leavingLeft)) = 1)
  /\ (ball (updateBall false true leavingRight)
      = {| x := 400; y := 200; dx := -4; dy := 4 |}
      /\ sright (score (updateBall false true leavingRight)) = 0
      /\ sleft (score (updateBall false true leavingRight)) = 1).
Proof.
  destruct scoring_and_reset as (Hleft & Hright & _).
  split.
  - destruct (Hleft true false leavingLeft) as (-> & -> & H & _);
      [reflexivity |].
    rewrite H by (cbn; lia). done.
  - destruct (Hright false true leavingRight) as (-> & -> & H & _);
      [reflexivity |].
    rewrite H by (cbn; lia). done.
Defined.

(** ** [paddleMove]: the broadcast *)

Lemma ownedBy_true c p : ownedBy c p = true <-> playerId p = Some c.
Proof. unfold ownedBy. apply bool_decide_eq_true. Qed.

Lemma ownedSide_Some c ps side :
  ownedSide c ps = Some side -> playerId (paddleOf side ps) = Some c.
Proof.
  unfold ownedSide.
  destruct (ownedBy c (left ps)) eqn:Hl.
  - intros [= <-]. apply ownedBy_true, Hl.
  - destruct (ownedBy c (right ps)) eqn:Hr; [| discriminate].
    intros [= <-]. apply ownedBy_true, Hr.
Qed.

Lemma ownedSide_owner c ps side :
  playerId (paddleOf side ps) = Some c ->
  exists side', ownedSide c ps = Some side'.
Proof.
  intros H. unfold ownedSide.
  destruct (ownedBy c (left ps)) eqn:Hl; [eauto |].
  destruct (ownedBy c (right ps)) eqn:Hr; [eauto |].
  destruct side; cbn in H; apply ownedBy_true in H; congruence.
Qed.

Lemma playerId_movedPaddles side side' d ps :
  playerId (paddleOf side' (movedPaddles side d ps))
  = playerId (paddleOf side' ps).
Proof. destruct side, side'; reflexivity. Qed.

Lemma py_movedPaddles side d ps :
  py (paddleOf side (movedPaddles side d ps))
  = movePaddle d (py (paddleOf side ps)).
Proof. destruct side; reflexivity. Qed.

(** C10: a move request from a connection that owns a paddle of its room is
    answered by one [paddleUpdate] broadcast to the room, naming a side the
    connection owns and that paddle's offset after the request, whether or
    not the request changed the offset. *)
Theorem paddleMove_broadcast :
  forall c d s roomId room owned,
    playerRooms s !! c = Some roomId ->
    truthyStr roomId = true ->
    rooms s !! roomId = Some room ->
    playerId (paddleOf owned (paddles (gameState room))) = Some c ->
    exists side room',
      rooms (paddleMove c d s).1 !! roomId = Some room'
      /\ playerId (paddleOf side (paddles (gameState room'))) = Some c
      /\ (paddleMove c d s).2
         = [ToRoom roomId
              (paddleUpdate side
                 (py (paddleOf side (paddles (gameState room')))))].
Proof.
  intros c d s roomId room owned Hi Ht Hr Ho.
  destruct (ownedSide_owner _ _ _ Ho) as [side Hs].
  rewrite (paddleMove_owner c d s roomId room side Hi Ht Hr Hs).
  cbn [fst snd rooms]. rewrite lookup_insert_eq.
  eexists side, _. split; [reflexivity |].
  cbn [gameState set_gameState paddles set_paddles].
  rewrite playerId_movedPaddles, py_movedPaddles.
  split; [apply ownedSide_Some, Hs | reflexivity].
Qed.

Lemma paddleMove_broadcast_at_top :
  (paddleMove "A" Up atTop).1 = atTop
  /\ exists side room',
      rooms (paddleMove "A" Up atTop).1 !! room1 = Some room'
      /\ playerId (paddleOf side (paddles (gameState room'))) = Some "A"
      /\ (paddleMove "A" Up atTop).2
         = [ToRoom room1
              (paddleUpdate side
                 (py (paddleOf side (paddles (gameState room')))))].
Proof.
  split; [vm_compute; reflexivity |].
  apply (paddleMove_broadcast "A" Up atTop room1 (roomOrNew true true atTop)
           SLeft);
    vm_compute; reflexivity.
Defined.

(** ** [disconnect] *)

Lemma filter_kept (c : string) (l : list string) :
  (exists p, p ∈ l /\ p <> c) ->
  List.filter (fun i => negb (String.eqb i c)) l <> [].
Proof.
  intros (p & Hp & Hne) Hnil.
  assert (In p (List.filter (fun i => negb (String.eqb i c)) l)) as Hin.
  { apply filter_In. split; [apply list_elem_of_In, Hp |].
    apply negb_true_iff, String.eqb_neq, Hne. }
  rewrite Hnil in Hin. destruct Hin.
Qed.

Lemma length_zero_nil {A} (l : list A) :
  Nat.eqb (length l) 0 = true -> l = [].
Proof. destruct l; [reflexivity | discriminate]. Qed.

Lemma leave_slot c gs side :
  playerId (paddleOf side (paddles gs)) = Some c ->
  playerId (paddleOf side (paddles (leave c gs))) = None.
Proof.
  intros H. unfold leave, vacate. destruct side; cbn in *.
  - apply ownedBy_true in H. rewrite H. reflexivity.
  - apply ownedBy_true in H. rewrite H. reflexivity.
Qed.

Lemma leave_other_slot c gs side o :
  playerId (paddleOf side (paddles gs)) = Some o -> o <> c ->
  paddleOf side (paddles (leave c gs)) = paddleOf side (paddles gs).
Proof.
  intros H Hne. unfold leave, vacate.
  assert (ownedBy c (paddleOf side (paddles gs)) = false) as Hf.
  { apply bool_decide_eq_false. congruence. }
  destruct side; cbn in *; rewrite Hf; reflexivity.
Qed.

(** C6: when one of the two paddle owners of an active room disconnects and
    somebody remains in the room, the room stays registered, the leaver's
    slot has no owner, the room is inactive, its timer is stopped (a tick
    does nothing), [playerDisconnected] is broadcast to the room, and the
    other owner's paddle has the owner and the offset it had. *)
Theorem disconnect_active :
  forall c s roomId room side o,
    playerRooms s !! c = Some roomId ->
    truthyStr roomId = true ->
    rooms s !! roomId = Some room ->
    gameActive (gameState room) = true ->
    playerId (paddleOf side (paddles (gameState room))) = Some c ->
    playerId (paddleOf (otherSide side) (paddles (gameState room))) = Some o ->
    o <> c ->
    (exists p, p ∈ players (gameState room) /\ p <> c) ->
    let s' := (disconnect c s).1 in
    exists room',
      rooms s' !! roomId = Some room'
      /\ playerId (paddleOf side (paddles (gameState room'))) = None
      /\ gameActive (gameState room') = false
      /\ gameLoop room' = false
      /\ (forall rx ry, tick roomId rx ry s' = (s', []))
      /\ (disconnect c s).2 = [ToRoom roomId playerDisconnected]
      /\ paddleOf (otherSide side) (paddles (gameState room'))
         = paddleOf (otherSide side) (paddles (gameState room)).
Proof.
  intros c s roomId room side o Hi Ht Hr Ha Hc Ho Hne Hrem s'.
  assert (Nat.eqb (length (players (leave c (gameState room)))) 0 = false)
    as Hlen.
  { destruct (Nat.eqb _ 0) eqn:E; [| reflexivity].
    apply length_zero_nil in E. exfalso. revert E. apply filter_kept, Hrem. }
  assert (rooms s' !! roomId = Some (leftRoom c room)) as Hr'.
  { unfold s'. rewrite (disconnect_rooms c s roomId room Hi Ht Hr), Hlen.
    apply lookup_insert_eq. }
  exists (leftRoom c room). split; [exact Hr' |].
  cbn [leftRoom gameState gameLoop set_gameActive paddles gameActive].
  repeat split.
  - apply leave_slot, Hc.
  - intros rx ry. unfold tick. rewrite Hr'. reflexivity.
  - rewrite (disconnect_out c s roomId room Hi Ht Hr), Hlen. reflexivity.
  - eapply leave_other_slot; eassumption.
Qed.

Lemma disconnect_active_mid_game :
  exists room',
    rooms (disconnect "A" midGame).1 !! room1 = Some room'
    /\ playerId (left (paddles (gameState room'))) = None
    /\ gameActive (gameState room') = false
    /\ gameLoop room' = false
    /\ (disconnect "A" midGame).2 = [ToRoom room1 playerDisconnected]
    /\ right (paddles (gameState room'))
       = {| py := 165; playerId := Some "B" |}.
Proof.
  destruct (disconnect_active "A" midGame room1 (roomOrNew true true midGame)
              SLeft "B")
    as (room' & H1 & H2 & H3 & H4 & _ & H6 & H7);
    [vm_compute; reflexivity .. | discriminate | | ].
  - exists "B". split; [| discriminate].
    apply list_elem_of_In. vm_compute. right. left. reflexivity.
  - exists room'. repeat split; assumption.
Defined.

(** C7: when a disconnect empties the player list of a room, the room's
    identifier is no longer registered; a later join under it registers a
    new room, whose state is that of a first join and owes nothing to the
    destroyed one. *)
Theorem last_disconnect_destroys :
  forall c s roomId room,
    playerRooms s !! c = Some roomId ->
    truthyStr roomId = true ->
    rooms s !! roomId = Some room ->
    players (leave c (gameState room)) = [] ->
    let s' := (disconnect c s).1 in
    rooms s' !! roomId = None
    /\ (roomId = room1 ->
        forall c' rx ry,
          rooms (joinGame c' rx ry s').1 !! roomId
          = Some {| id := room1; gameState := firstJoin c' rx ry;
                    gameLoop := false |}).
Proof.
  intros c s roomId room Hi Ht Hr He s'.
  assert (rooms s' !! roomId = None) as Hgone.
  { unfold s'. rewrite (disconnect_rooms c s roomId room Hi Ht Hr), He.
    apply lookup_delete_eq. }
  split; [exact Hgone |].
  intros -> c' rx ry. rewrite joinGame_rooms, lookup_insert_eq.
  unfold roomOrNew. rewrite Hgone. reflexivity.
Qed.

Lemma last_disconnect_destroys_scored :
  (exists room, rooms lastPlayer !! room1 = Some room
                /\ score (gameState room) = {| sleft := 0; sright := 1 |})
  /\ rooms (disconnect "B" lastPlayer).1 !! room1 = None
  /\ rooms (joinGame "C" true true (disconnect "B" lastPlayer).1).1 !! room1
     = Some {| id := room1; gameState := firstJoin "C" true true;
               gameLoop := false |}.
Proof.
  destruct (last_disconnect_destroys "B" lastPlayer room1
              (roomOrNew true true lastPlayer)) as [H1 H2];
    [vm_compute; reflexivity .. |].
  split; [eexists; split; vm_compute; reflexivity |].
  split; [exact H1 | apply H2; reflexivity].
Defined.

(** ** A second join of a registered connection *)

(** "A" joins an empty room and joins again: listed twice, owner of both
    paddles, and the room is active. *)
Lemma rejoin_not_absorbed : ~ rejoin_absorbed.
Proof.
  intros H.
  destruct (H (run [JoinGame "A" true true] initial) "A" true true
              (roomOrNew true true (run [JoinGame "A" true true] initial)))
    as (_ & room' & Hr & Hp & _).
  - apply reachable_run, reach_initial.
  - vm_compute. reflexivity.
  - vm_compute. reflexivity.
  - apply list_elem_of_In. vm_compute. left. reflexivity.
  - vm_compute in Hr. injection Hr as <-. vm_compute in Hp. discriminate Hp.
Qed.

Lemma assignPaddle_owners c gs :
  let ps := paddles gs in
  let ps' := paddles (assignPaddle c gs).1 in
  playerId (left ps')
  = (if truthy (playerId (left ps)) then playerId (left ps) else Some c)
  /\ playerId (right ps')
     = (if truthy (playerId (left ps)) && negb (truthy (playerId (right ps)))
        then Some c else playerId (right ps)).
Proof.
  unfold assignPaddle. cbv zeta.
  destruct (truthy (playerId (left (paddles gs)))); [| done].
  destruct (truthy (playerId (right (paddles gs)))); done.
Qed.

Lemma gameActive_assignPaddle c gs :
  gameActive (assignPaddle c gs).1 = gameActive gs.
Proof.
  unfold assignPaddle. cbv zeta.
  destruct (negb (truthy (playerId (left (paddles gs))))); [done |].
  destruct (negb (truthy (playerId (right (paddles gs))))); done.
Qed.

Lemma joined_owners c gs :
  playerId (left (paddles (joined c gs)))
  = (if truthy (playerId (left (paddles gs)))
     then playerId (left (paddles gs)) else Some c)
  /\ playerId (right (paddles (joined c gs)))
     = (if truthy (playerId (left (paddles gs)))
           && negb (truthy (playerId (right (paddles gs))))
        then Some c else playerId (right (paddles gs))).
Proof.
  unfold joined. cbv zeta.
  destruct (Nat.eqb _ 2); cbn [paddles set_gameActive];
    apply (assignPaddle_owners c (set_players _ gs)).
Qed.

Lemma gameActive_joined c gs :
  gameActive (joined c gs)
  = if Nat.eqb (length (players gs)) 1 then true else gameActive gs.
Proof.
  unfold joined. cbv zeta. rewrite players_assignPaddle.
  cbn [players set_players]. rewrite length_app. cbn [length].
  replace (length (players gs) + 1)%nat with (S (length (players gs))) by lia.
  cbn [Nat.eqb].
  destruct (Nat.eqb (length (players gs)) 1); [reflexivity |].
  apply (gameActive_assignPaddle c (set_players _ gs)).
Qed.

Lemma joinGame_out c rx ry s :
  exists out,
    (joinGame c rx ry s).2
    = out ++ [ToSocket c
                (gameStateMsg (joined c (gameState (roomOrNew rx ry s))))].
Proof.
  unfold joinGame, joined. cbv zeta. fold (roomOrNew rx ry s).
  destruct (assignPaddle c _) as [gs2 out]. cbn [fst].
  destruct (Nat.eqb (length (players gs2)) 2); cbn [snd].
  - exists (out ++ [ToRoom room1 gameStart]). rewrite <- app_assoc. reflexivity.
  - exists out. reflexivity.
Qed.

(** C1 (as the code has it): a join from a connection already registered
    in the room leaves the reverse index as it was and ends, like any join,
    by sending the game state to the joiner; but the room changes: the
    connection is appended to the player list once more, it becomes the
    owner of the first paddle slot that has none (owned slots keep their
    owner), and the room is made active when that brings the player list to
    two entries (otherwise the flag is kept). *)
Theorem rejoin_effect :
  forall c rx ry s room,
    playerRooms s !! c = Some room1 ->
    rooms s !! room1 = Some room ->
    let gs := gameState room in
    let s' := (joinGame c rx ry s).1 in
    playerRooms s' = playerRooms s
    /\ exists room',
        rooms s' !! room1 = Some room'
        /\ (exists out,
              (joinGame c rx ry s).2
              = out ++ [ToSocket c (gameStateMsg (gameState room'))])
        /\ players (gameState room') = players gs ++ [c]
        /\ playerId (left (paddles (gameState room')))
           = (if truthy (playerId (left (paddles gs)))
              then playerId (left (paddles gs)) else Some c)
        /\ playerId (right (paddles (gameState room')))
           = (if truthy (playerId (left (paddles gs)))
                 && negb (truthy (playerId (right (paddles gs))))
              then Some c else playerId (right (paddles gs)))
        /\ gameActive (gameState room')
           = (if Nat.eqb (length (players gs)) 1 then true
              else gameActive gs).
Proof.
  intros c rx ry s room Hi Hr gs s'. unfold s'.
  rewrite joinGame_index, joinGame_rooms. split; [apply insert_id, Hi |].
  assert (roomOrNew rx ry s = room) as Hroom
      by (unfold roomOrNew; rewrite Hr; reflexivity).
  destruct (joinGame_out c rx ry s) as [out Hout]. rewrite Hroom in Hout.
  exists (joinedRoom c room). rewrite Hroom, lookup_insert_eq.
  split; [reflexivity |].
  split; [exists out; exact Hout |].
  cbn [joinedRoom gameState]. fold gs.
  split; [apply players_joined |].
  destruct (joined_owners c gs) as [Hl Hrt].
  split; [exact Hl |]. split; [exact Hrt |]. apply gameActive_joined.
Qed.

Lemma rejoin_effect_alone :
  let s := run [JoinGame "A" true true] initial in
  playerRooms (joinGame "A" true true s).1 = playerRooms s
  /\ exists room',
      rooms (joinGame "A" true true s).1 !! room1 = Some room'
      /\ players (gameState room') = ["A"; "A"]
      /\ playerId (left (paddles (gameState room'))) = Some "A"
      /\ playerId (right (paddles (gameState room'))) = Some "A"
      /\ gameActive (gameState room') = true.
Proof.
  intros s.
  destruct (rejoin_effect "A" true true s (roomOrNew true true s))
    as (H0 & room' & H1 & _ & H2 & H3 & H4 & H5);
    [vm_compute; reflexivity .. |].
  split; [exact H0 |]. exists room'. repeat split; assumption.
Defined.

(** ** The active flag and the paddle slots *)

(** After [spectatorStays] the room is active and its right slot is free. *)
Lemma active_with_a_free_slot : ~ active_iff_both_owned.
Proof.
  intros H.
  destruct (H (run spectatorStays initial) room1
              (roomOrNew true true (run spectatorStays initial)))
    as [Hto _].
  - apply reachable_run, reach_initial.
  - vm_compute. reflexivity.
  - destruct Hto as [_ Hright]; [vm_compute; reflexivity |].
    apply Hright. vm_compute. reflexivity.
Qed.

(** The other direction fails as well: after a spectator joined and the left
    player was replaced, both slots are owned in an inactive room. *)
Lemma both_owned_inactive :
  let s := run [JoinGame "A" true true; JoinGame "B" true true;
                JoinGame "C" true true; Disconnect "A";
                JoinGame "D" true true] initial in
  exists room,
    rooms s !! room1 = Some room
    /\ playerId (left (paddles (gameState room))) = Some "D"
    /\ playerId (right (paddles (gameState room))) = Some "B"
    /\ players (gameState room) = ["B"; "C"; "D"]
    /\ gameActive (gameState room) = false.
Proof. eexists. repeat split; vm_compute; reflexivity. Qed.

(** *** The registries along a run *)

Lemma truthy_Some a : a <> "" -> truthy (Some a) = true.
Proof.
  intros H. cbn. unfold truthyStr.
  apply negb_true_iff, String.eqb_neq, H.
Qed.

Lemma players_leave c gs : players (leave c gs) = without c (players gs).
Proof. reflexivity. Qed.

Lemma owners_leave c gs :
  playerId (left (paddles (leave c gs)))
  = (if ownedBy c (left (paddles gs)) then None
     else playerId (left (paddles gs)))
  /\ playerId (right (paddles (leave c gs)))
     = (if ownedBy c (right (paddles gs)) then None
        else playerId (right (paddles gs))).
Proof.
  unfold leave, vacate. cbn.
  destruct (ownedBy c (left (paddles gs))),
           (ownedBy c (right (paddles gs))); done.
Qed.

Lemma without_self c : without c [c] = [].
Proof. unfold without. cbn. rewrite String.eqb_refl. reflexivity. Qed.

Lemma without_other c p : p <> c -> without c [p] = [p].
Proof.
  intros H. unfold without. cbn.
  rewrite (proj2 (String.eqb_neq p c) H). reflexivity.
Qed.

Lemma without_cons c p l : without c (p :: l) = without c [p] ++ without c l.
Proof. unfold without. cbn. destruct (negb (String.eqb p c)); reflexivity. Qed.

Lemma elem_of_without c p l : p ∈ without c l <-> p ∈ l /\ p <> c.
Proof.
  unfold without. rewrite !list_elem_of_In, filter_In, negb_true_iff.
  rewrite String.eqb_neq. reflexivity.
Qed.

Lemma room1_truthy : truthyStr room1 = true.
Proof. reflexivity. Qed.

Lemma quiet_step e s :
  quiet e ->
  playerRooms (step e s) = playerRooms s
  /\ forall rid,
      rooms (step e s) !! rid = rooms s !! rid
      \/ exists room room',
          rooms s !! rid = Some room
          /\ rooms (step e s) !! rid = Some room'
          /\ sameSeats (gameState room) (gameState room').
Proof.
  destruct e as [c rx ry | c d | c | roomId rx ry]; intros []; unfold step;
    cbn [handle].
  - unfold paddleMove.
    destruct (playerRooms s !! c) as [roomId |]; [| auto].
    destruct (negb (truthyStr roomId)); [auto |].
    destruct (rooms s !! roomId) as [room |] eqn:Hr; [| auto].
    destruct (ownedSide c (paddles (gameState room))) as [side |]; [| auto].
    cbn [fst rooms playerRooms]. split; [reflexivity |]. intros rid.
    destruct (decide (rid = roomId)) as [-> | Hne].
    + right. exists room. eexists. rewrite lookup_insert_eq.
      split; [exact Hr |]. split; [reflexivity |].
      unfold sameSeats. cbn [gameState set_gameState paddles set_paddles
                               players gameActive].
      destruct side; done.
    + left. apply lookup_insert_ne. congruence.
  - unfold tick.
    destruct (rooms s !! roomId) as [room |] eqn:Hr; [| auto].
    destruct (gameLoop room); [| auto].
    cbn [fst rooms playerRooms]. split; [reflexivity |]. intros rid.
    destruct (decide (rid = roomId)) as [-> | Hne].
    + right. exists room. eexists. rewrite lookup_insert_eq.
      split; [exact Hr |]. split; [reflexivity |].
      unfold sameSeats. cbn [gameState set_gameState].
      destruct (updateBall_keeps rx ry (gameState room)) as (-> & -> & ->).
      done.
    + left. apply lookup_insert_ne. congruence.
Qed.

Lemma join_registryInv c rx ry s :
  registryInv s -> registryInv (joinGame c rx ry s).1.
Proof.
  intros [H1 H2 H3 H4].
  assert (forall p, p ∈ players (gameState (joinedRoom c (roomOrNew rx ry s)))
                    <-> p = c \/ exists room, rooms s !! room1 = Some room
                                              /\ p ∈ players (gameState room))
    as Hmem.
  { intros p. cbn [joinedRoom gameState]. rewrite players_joined.
    rewrite elem_of_app, list_elem_of_singleton. unfold roomOrNew.
    destruct (rooms s !! room1) as [room |] eqn:Hr.
    - split; [intros [? | ?]; eauto | intros [? | (r & [= <-] & ?)]; auto].
    - cbn. rewrite elem_of_nil.
      split; [intros [[] | ?]; auto | intros [? | (r & [=] & _)]; auto]. }
  split; rewrite ?joinGame_rooms, ?joinGame_index.
  - intros rid room. destruct (decide (rid = room1)) as [-> | Hne]; [done |].
    rewrite lookup_insert_ne by congruence. apply H1.
  - intros rid room. destruct (decide (rid = room1)) as [-> | Hne].
    + rewrite lookup_insert_eq. intros [= <-]. cbn [joinedRoom gameState].
      rewrite players_joined. intros Hnil. apply app_eq_nil in Hnil as [_ [=]].
    + rewrite lookup_insert_ne by congruence. apply H2.
  - intros p rid. rewrite lookup_insert_eq.
    destruct (decide (p = c)) as [-> | Hne].
    + rewrite lookup_insert_eq. intros [= <-]. split; [reflexivity |].
      eexists. split; [reflexivity |]. apply Hmem. left. reflexivity.
    + rewrite lookup_insert_ne by congruence. intros Hp.
      destruct (H3 p rid Hp) as (-> & room & Hr & Hin).
      split; [reflexivity |]. eexists. split; [reflexivity |].
      apply Hmem. right. eauto.
  - intros room p. rewrite lookup_insert_eq. intros [= <-] Hin.
    apply Hmem in Hin. destruct Hin as [-> | (room & Hr & Hin)].
    + apply lookup_insert_eq.
    + destruct (decide (p = c)) as [-> | Hne]; [apply lookup_insert_eq |].
      rewrite lookup_insert_ne by congruence. eapply H4; eassumption.
Qed.

Lemma disconnect_registryInv c s :
  registryInv s -> registryInv (disconnect c s).1.
Proof.
  intros Hinv. pose proof Hinv as [H1 H2 H3 H4].
  destruct (playerRooms s !! c) as [rid |] eqn:Hi;
    [| rewrite disconnect_unregistered by exact Hi; exact Hinv].
  destruct (H3 c rid Hi) as (-> & room & Hr & Hin).
  pose proof (disconnect_rooms c s room1 room Hi room1_truthy Hr) as Hrooms.
  pose proof (disconnect_index c s room1 Hi room1_truthy) as Hindex.
  destruct (Nat.eqb (length (players (leave c (gameState room)))) 0) eqn:Hlen.
  - apply length_zero_nil in Hlen.
    assert (forall p, p ∈ players (gameState room) -> p = c) as Honly.
    { intros p Hp. destruct (decide (p = c)) as [-> | Hne]; [done |].
      assert (p ∈ without c (players (gameState room))) as Hp'
          by (apply elem_of_without; done).
      rewrite <- players_leave, Hlen in Hp'. inversion Hp'. }
    split; rewrite ?Hrooms, ?Hindex.
    + intros rid r. destruct (decide (rid = room1)) as [-> | Hne]; [done |].
      rewrite lookup_delete_ne by congruence. apply H1.
    + intros rid r. destruct (decide (rid = room1)) as [-> | Hne].
      * rewrite lookup_delete_eq. discriminate.
      * rewrite lookup_delete_ne by congruence. apply H2.
    + intros p rid. destruct (decide (p = c)) as [-> | Hne].
      * rewrite lookup_delete_eq. discriminate.
      * rewrite lookup_delete_ne by congruence. intros Hp.
        destruct (H3 p rid Hp) as (_ & r & Hr' & Hp').
        assert (r = room) as -> by congruence.
        exfalso. apply Hne, Honly, Hp'.
    + intros r p. rewrite lookup_delete_eq. discriminate.
  - assert (players (leave c (gameState room)) <> []) as Hsome
        by (intros E; rewrite E in Hlen; discriminate).
    split; rewrite ?Hrooms, ?Hindex.
    + intros rid r. destruct (decide (rid = room1)) as [-> | Hne]; [done |].
      rewrite lookup_insert_ne by congruence. apply H1.
    + intros rid r. destruct (decide (rid = room1)) as [-> | Hne].
      * rewrite lookup_insert_eq. intros [= <-]. exact Hsome.
      * rewrite lookup_insert_ne by congruence. apply H2.
    + intros p rid. destruct (decide (p = c)) as [-> | Hne].
      * rewrite lookup_delete_eq. discriminate.
      * rewrite lookup_delete_ne, lookup_insert_eq by congruence. intros Hp.
        destruct (H3 p rid Hp) as (-> & r & Hr' & Hp').
        assert (r = room) as -> by congruence.
        split; [reflexivity |]. eexists. split; [reflexivity |].
        cbn. apply elem_of_without. done.
    + intros r p. rewrite lookup_insert_eq. intros [= <-]. cbn.
      intros [Hp Hne]%elem_of_without.
      rewrite lookup_delete_ne by congruence. eapply H4; eassumption.
Qed.

Lemma quiet_registryInv e s :
  quiet e -> registryInv s -> registryInv (step e s).
Proof.
  intros Hq [H1 H2 H3 H4].
  destruct (quiet_step e s Hq) as [Hindex Hrooms].
  assert (forall rid room', rooms (step e s) !! rid = Some room' ->
            exists room, rooms s !! rid = Some room
                         /\ sameSeats (gameState room) (gameState room'))
    as Hback.
  { intros rid room' Hr'.
    destruct (Hrooms rid) as [Heq | (room & room0 & Hr & Hr0 & Hsame)].
    - exists room'. rewrite <- Heq. split; [exact Hr' | done].
    - exists room. split; [exact Hr |]. congruence. }
  assert (forall rid room, rooms s !! rid = Some room ->
            exists room', rooms (step e s) !! rid = Some room'
                          /\ sameSeats (gameState room) (gameState room'))
    as Hforth.
  { intros rid room Hr.
    destruct (Hrooms rid) as [Heq | (room0 & room' & Hr0 & Hr' & Hsame)].
    - exists room. rewrite Heq. split; [exact Hr | done].
    - exists room'. split; [exact Hr' |]. congruence. }
  split; rewrite ?Hindex.
  - intros rid room' Hr'. destruct (Hback rid room' Hr') as (room & Hr & _).
    eapply H1, Hr.
  - intros rid room' Hr'.
    destruct (Hback rid room' Hr') as (room & Hr & Hp & _).
    rewrite Hp. eapply H2, Hr.
  - intros c rid Hc. destruct (H3 c rid Hc) as (-> & room & Hr & Hin).
    split; [reflexivity |].
    destruct (Hforth room1 room Hr) as (room' & Hr' & Hp & _).
    exists room'. rewrite Hp. done.
  - intros room' c Hr' Hin.
    destruct (Hback room1 room' Hr') as (room & Hr & Hp & _).
    rewrite Hp in Hin. eapply H4; eassumption.
Qed.

Lemma reachable_registryInv s : reachable s -> registryInv s.
Proof.
  induction 1 as [| e s Hs IH].
  - split; cbn; intros *; rewrite ?lookup_empty; discriminate.
  - destruct e as [c rx ry | c d | c | roomId rx ry].
    + apply join_registryInv, IH.
    + apply quiet_registryInv; done.
    + apply disconnect_registryInv, IH.
    + apply quiet_registryInv; done.
Qed.

(** *** Orderly runs *)

Lemma orderly_reachable s : orderly s -> reachable s.
Proof. induction 1; [apply reach_initial | apply reach_step; assumption]. Qed.

Lemma seated_active l r ps act :
  seated l r ps act -> act = true <-> (l <> None /\ r <> None).
Proof.
  intros [(a & _ & _ & [[-> ->] | [-> ->]] & ->)
         | (a & b & _ & _ & -> & -> & _ & ->)]; split; try done.
  - intros [_ H]. done.
  - intros [H _]. done.
Qed.

Lemma seated_first_join c rx ry :
  c <> "" -> roomShape (joined c (createGameState rx ry)).
Proof.
  intros Hc. left. exists c. repeat split; try done. left. done.
Qed.

Lemma seated_second_join c gs :
  c <> "" -> (length (players gs) < 2)%nat ->
  roomShape gs -> roomShape (joined c gs).
Proof.
  intros Hc Hlen Hs. unfold roomShape in *.
  destruct (joined_owners c gs) as [-> ->].
  rewrite gameActive_joined, players_joined.
  destruct Hs as [(a & Ha & Hps & Hown & Hact)
                 | (a & b & _ & _ & _ & _ & [Hps | Hps] & _)];
    [| rewrite Hps in Hlen; cbn in Hlen; lia ..].
  rewrite Hps in *. cbn [length Nat.eqb app].
  right. destruct Hown as [[-> ->] | [-> ->]].
  - rewrite (truthy_Some a Ha). cbn.
    exists a, c. repeat split; auto.
  - cbn. exists c, a. repeat split; auto.
Qed.

(** A player of an orderly room leaves: the room empties, or is left with
    the other player on the slot that player had, and inactive. *)
Lemma seated_leave c gs :
  roomShape gs -> c ∈ players gs ->
  players (leave c gs) = []
  \/ (players (leave c gs) <> []
      /\ roomShape (set_gameActive false (leave c gs))).
Proof.
  unfold roomShape. intros Hs Hin.
  destruct (owners_leave c gs) as [Hl Hr].
  cbn [paddles players gameActive set_gameActive].
  rewrite Hl, Hr, players_leave. unfold ownedBy.
  destruct Hs as [(a & Ha & Hps & Hown & Hact)
                 | (a & b & Ha & Hb & Hla & Hrb & Hps & Hact)].
  - left. rewrite Hps in *. apply list_elem_of_singleton in Hin as ->.
    apply without_self.
  - destruct (decide (a = b)) as [<- | Hab].
    { left. assert (c = a) as ->.
      { destruct Hps as [Hps | Hps]; rewrite Hps in Hin;
          rewrite !elem_of_cons, elem_of_nil in Hin; tauto. }
      destruct Hps as [-> | ->]; rewrite without_cons, without_self; done. }
    right. rewrite Hla, Hrb.
    assert (c = a \/ c = b) as [-> | ->].
    { destruct Hps as [Hps | Hps]; rewrite Hps in Hin;
        rewrite !elem_of_cons, elem_of_nil in Hin; tauto. }
    + assert (without a (players gs) = [b]) as ->.
      { destruct Hps as [-> | ->]; rewrite without_cons;
          rewrite ?without_self, ?without_other by congruence; done. }
      split; [done |]. left. exists b.
      rewrite bool_decide_eq_true_2 by done.
      rewrite bool_decide_eq_false_2 by congruence.
      repeat split; auto.
    + assert (without b (players gs) = [a]) as ->.
      { destruct Hps as [-> | ->]; rewrite without_cons;
          rewrite ?without_self, ?without_other by congruence; done. }
      split; [done |]. left. exists a.
      rewrite bool_decide_eq_false_2 by congruence.
      rewrite bool_decide_eq_true_2 by done.
      repeat split; auto.
Qed.

Lemma orderly_roomShape s :
  orderly s ->
  forall room, rooms s !! room1 = Some room -> roomShape (gameState room).
Proof.
  induction 1 as [| e s Hs IH He]; intros room' Hr'.
  { cbn in Hr'. rewrite lookup_empty in Hr'. discriminate. }
  pose proof (reachable_registryInv s (orderly_reachable s Hs))
    as [_ _ H3 _].
  destruct e as [c rx ry | c d | c | roomId rx ry]; unfold step in Hr';
    cbn [handle] in Hr'.
  - destruct He as [Hc Hroom].
    rewrite joinGame_rooms, lookup_insert_eq in Hr'. injection Hr' as <-.
    cbn [joinedRoom gameState]. unfold roomOrNew.
    destruct (rooms s !! room1) as [room |] eqn:Hr.
    + apply seated_second_join; auto.
    + apply seated_first_join, Hc.
  - destruct (quiet_step (PaddleMove c d) s I) as [_ Hrooms].
    destruct (Hrooms room1) as [Heq | (room & room0 & Hr & Hr0 & Hsame)].
    + apply IH. rewrite <- Heq. exact Hr'.
    + unfold step in Hr0. cbn [handle] in Hr0.
      assert (room0 = room') as -> by congruence.
      destruct Hsame as (Hp & Hl & Hrt & Ha).
      unfold roomShape. rewrite Hp, Hl, Hrt, Ha. apply (IH room Hr).
  - destruct (playerRooms s !! c) as [rid |] eqn:Hi;
      [| rewrite disconnect_unregistered in Hr' by exact Hi;
         apply IH, Hr'].
    destruct (H3 c rid Hi) as (-> & room & Hr & Hin).
    rewrite (disconnect_rooms c s room1 room Hi room1_truthy Hr) in Hr'.
    destruct (seated_leave c (gameState room) (IH room Hr) Hin)
      as [Hnil | [Hsome Hshape]].
    + rewrite Hnil in Hr'. cbn in Hr'. rewrite lookup_delete_eq in Hr'.
      discriminate.
    + assert (Nat.eqb (length (players (leave c (gameState room)))) 0
              = false) as Hlen
          by (destruct (players (leave c (gameState room))); done).
      rewrite Hlen, lookup_insert_eq in Hr'. injection Hr' as <-.
      exact Hshape.
  - destruct (quiet_step (Tick roomId rx ry) s I) as [_ Hrooms].
    destruct (Hrooms room1) as [Heq | (room & room0 & Hr & Hr0 & Hsame)].
    + apply IH. rewrite <- Heq. exact Hr'.
    + unfold step in Hr0. cbn [handle] in Hr0.
      assert (room0 = room') as -> by congruence.
      destruct Hsame as (Hp & Hl & Hrt & Ha).
      unfold roomShape. rewrite Hp, Hl, Hrt, Ha. apply (IH room Hr).
Qed.

(** C2 (as the code has it): in every state reached by joins of connections
    with non-empty identifiers into rooms of fewer than two players, and by
    any moves, disconnects and ticks, a room is active if and only if both
    of its paddle slots have an owner. *)
Theorem active_iff_both_owned_orderly :
  forall s rid room,
    orderly s ->
    rooms s !! rid = Some room ->
    gameActive (gameState room) = true <-> bothOwned (gameState room).
Proof.
  intros s rid room Hs Hr.
  destruct (reachable_registryInv s (orderly_reachable s Hs)) as [H1 _ _ _].
  rewrite (H1 rid room Hr) in Hr.
  apply seated_active with (ps := players (gameState room)).
  apply (orderly_roomShape s Hs room Hr).
Qed.

Lemma active_iff_both_owned_two_players :
  let s := step (JoinGame "B" true true)
             (step (JoinGame "A" true true) initial) in
  exists room,
    rooms s !! room1 = Some room
    /\ (gameActive (gameState room) = true <-> bothOwned (gameState room)).
Proof.
  intros s. exists (roomOrNew true true s).
  split; [vm_compute; reflexivity |].
  apply (active_iff_both_owned_orderly s room1).
  - apply orderly_step; [apply orderly_step; [apply orderly_initial |] |].
    + split; [discriminate |].
      intros room Hr. vm_compute in Hr. discriminate Hr.
    + split; [discriminate |].
      intros room Hr. vm_compute in Hr. injection Hr as <-. cbn. lia.
  - vm_compute. reflexivity.
Defined.

(** ** The timer handle *)

Lemma evolves_loop room room' :
  evolves room room' -> loopNeedsTwo room -> loopNeedsTwo room'.
Proof.
  unfold loopNeedsTwo.
  intros [r | c r | side d r | c r | rx ry r] H;
    cbn [gameState gameLoop joinedRoom leftRoom set_gameState players
         set_paddles].
  - exact H.
  - rewrite players_joined, length_app. cbn [length].
    destruct (Nat.eqb _ 2) eqn:E; [apply Nat.eqb_eq in E; lia |].
    intros Hl. specialize (H Hl). lia.
  - exact H.
  - discriminate.
  - destruct (updateBall_keeps rx ry (gameState r)) as (_ & -> & _). exact H.
Qed.

Lemma timer_started_once s c room :
  reachable s ->
  rooms s !! room1 = Some room ->
  length (players (joined c (gameState room))) = 2%nat ->
  gameLoop room = false.
Proof.
  intros Hs Hr Hlen.
  assert (loopNeedsTwo room) as Hl.
  { eapply (reachable_rooms loopNeedsTwo);
      [| apply evolves_loop | exact Hs | exact Hr].
    intros c' rx' ry'. unfold loopNeedsTwo. cbn. discriminate. }
  rewrite players_joined, length_app in Hlen. cbn in Hlen.
  destruct (gameLoop room) eqn:E; [| reflexivity].
  specialize (Hl E). lia.
Qed.

(** * Further properties *)

(** ** The registries of a running server *)

(** X1: after any sequence of events the reverse index and the player
    lists agree: a connection is indexed, and then under "room1", exactly
    when the room registered there lists it as a player. *)
Theorem index_matches_players :
  forall es c,
    let s := run es initial in
    (forall rid, playerRooms s !! c = Some rid -> rid = room1)
    /\ (playerRooms s !! c = Some room1
        <-> exists room, rooms s !! room1 = Some room
                         /\ c ∈ players (gameState room)).
Proof.
  intros es c s.
  destruct (reachable_registryInv s) as [H1 H2 H3 H4];
    [apply reachable_run, reach_initial |].
  split; [intros rid Hi; apply (H3 c rid Hi) |].
  split.
  - intros Hi. apply (H3 c room1 Hi).
  - intros (room & Hr & Hin). eapply H4; eassumption.
Qed.

(** X2: after any sequence of events a registered room is the one under
    "room1" and has a player: a room is never left registered empty. *)
Theorem registered_room_has_players :
  forall es rid room,
    rooms (run es initial) !! rid = Some room ->
    rid = room1 /\ players (gameState room) <> [].
Proof.
  intros es rid room Hr.
  destruct (reachable_registryInv (run es initial)) as [H1 H2 _ _];
    [apply reachable_run, reach_initial |].
  split; [eapply H1, Hr | eapply H2, Hr].
Qed.

Lemma registered_room_has_players_mid_game :
  exists room,
    rooms midGame !! room1 = Some room
    /\ players (gameState room) = ["A"; "B"]
    /\ players (gameState room) <> [].
Proof.
  exists (roomOrNew true true midGame).
  split; [vm_compute; reflexivity |]. split; [vm_compute; reflexivity |].
  apply (registered_room_has_players
           [JoinGame "A" true false; JoinGame "B" true true;
            PaddleMove "B" Down; Tick room1 true true] room1).
  vm_compute. reflexivity.
Defined.

(** ** Rooms of a running server *)

Lemma reachable_room_run (P : Room -> Prop) :
  (forall c rx ry, P (joinedRoom c (newRoom rx ry))) ->
  (forall room room', evolves room room' -> P room -> P room') ->
  forall es rid room, rooms (run es initial) !! rid = Some room -> P room.
Proof.
  intros Hnew Hkeep es rid room Hr.
  eapply (reachable_rooms P Hnew Hkeep (run es initial));
    [apply reachable_run, reach_initial | exact Hr].
Qed.

Lemma evolves_owners room room' :
  evolves room room' -> ownersPlay room -> ownersPlay room'.
Proof.
  unfold ownersPlay.
  intros [r | c r | side d r | c r | rx ry r] H side' o;
    cbn [gameState joinedRoom leftRoom set_gameState players paddles
         set_paddles set_gameActive].
  - apply H.
  - rewrite players_joined, elem_of_app, list_elem_of_singleton.
    destruct (joined_owners c (gameState r)) as [Hl Hr].
    destruct side'; cbn [paddleOf]; [rewrite Hl | rewrite Hr].
    + destruct (truthy _); [| intros [= <-]; auto].
      intros Ho. left. apply (H SLeft o Ho).
    + destruct (_ && _); [intros [= <-]; auto |].
      intros Ho. left. apply (H SRight o Ho).
  - rewrite playerId_movedPaddles. apply H.
  - rewrite players_leave, elem_of_without.
    destruct (owners_leave c (gameState r)) as [Hl Hr].
    destruct side'; cbn [paddleOf].
    + rewrite Hl. destruct (ownedBy c (left _)) eqn:E; [intros [=] |].
      intros Ho. split; [apply (H SLeft o Ho) |].
      intros ->. apply ownedBy_true in Ho. congruence.
    + rewrite Hr. destruct (ownedBy c (right _)) eqn:E; [intros [=] |].
      intros Ho. split; [apply (H SRight o Ho) |].
      intros ->. apply ownedBy_true in Ho. congruence.
  - destruct (updateBall_keeps rx ry (gameState r)) as (-> & -> & _). apply H.
Qed.

Lemma run_owner_registered es rid room side c :
  rooms (run es initial) !! rid = Some room ->
  playerId (paddleOf side (paddles (gameState room))) = Some c ->
  c ∈ players (gameState room)
  /\ playerRooms (run es initial) !! c = Some rid.
Proof.
  intros Hr Ho.
  assert (c ∈ players (gameState room)) as Hin.
  { eapply (reachable_room_run ownersPlay);
      [| apply evolves_owners | exact Hr | exact Ho].
    intros c' rx ry side' o. destruct side'; cbn; [| discriminate].
    intros [= <-]. left. }
  split; [exact Hin |].
  destruct (reachable_registryInv (run es initial)) as [H1 _ _ H4];
    [apply reachable_run, reach_initial |].
  pose proof (H1 rid room Hr) as ->. eapply H4; eassumption.
Qed.

(** X3: after any sequence of events, a connection that owns a paddle of a
    room is one of the room's players, and is indexed under the room. *)
Theorem owner_is_registered_player :
  forall es rid room side c,
    rooms (run es initial) !! rid = Some room ->
    playerId (paddleOf side (paddles (gameState room))) = Some c ->
    c ∈ players (gameState room)
    /\ playerRooms (run es initial) !! c = Some rid.
Proof. intros es rid room side c. apply run_owner_registered. Qed.

Lemma owner_is_registered_player_mid_game :
  exists room,
    rooms midGame !! room1 = Some room
    /\ playerId (right (paddles (gameState room))) = Some "B"
    /\ "B" ∈ players (gameState room)
    /\ playerRooms midGame !! "B" = Some room1.
Proof.
  exists (roomOrNew true true midGame).
  split; [vm_compute; reflexivity |]. split; [vm_compute; reflexivity |].
  apply (owner_is_registered_player
           [JoinGame "A" true false; JoinGame "B" true true;
            PaddleMove "B" Down; Tick room1 true true] room1 _ SRight "B");
    vm_compute; reflexivity.
Defined.

Lemma evolves_loopIsActive room room' :
  evolves room room' -> loopIsActive room -> loopIsActive room'.
Proof.
  unfold loopIsActive.
  intros [r | c r | side d r | c r | rx ry r] [Hl Ha];
    cbn [gameState gameLoop gameActive joinedRoom leftRoom set_gameState
         players set_paddles set_gameActive].
  - done.
  - rewrite gameActive_joined, players_joined, length_app. cbn [length].
    replace (length (players (gameState r)) + 1)%nat
      with (S (length (players (gameState r)))) by lia.
    cbn [Nat.eqb]. destruct (Nat.eqb (length (players (gameState r))) 1) eqn:E.
    + apply Nat.eqb_eq in E. split; [reflexivity | lia].
    + split; [exact Hl |]. intros H. specialize (Ha H). lia.
  - done.
  - done.
  - destruct (updateBall_keeps rx ry (gameState r)) as (_ & -> & ->). done.
Qed.

Lemma run_loopIsActive es rid room :
  rooms (run es initial) !! rid = Some room -> loopIsActive room.
Proof.
  intros Hr.
  eapply (reachable_room_run loopIsActive);
    [| apply evolves_loopIsActive | exact Hr].
  intros c rx ry. split; [reflexivity | discriminate].
Qed.

(** X4: after any sequence of events the timer of a room runs exactly when
    the room is active, and an active room lists at least two players. *)
Theorem timer_runs_iff_active :
  forall es rid room,
    rooms (run es initial) !! rid = Some room ->
    gameLoop room = gameActive (gameState room)
    /\ (gameActive (gameState room) = true ->
        (2 <= length (players (gameState room)))%nat).
Proof. intros es rid room. apply run_loopIsActive. Qed.

Lemma timer_runs_iff_active_mid_game :
  exists room,
    rooms midGame !! room1 = Some room
    /\ gameLoop room = true
    /\ gameLoop room = gameActive (gameState room).
Proof.
  exists (roomOrNew true true midGame).
  split; [vm_compute; reflexivity |]. split; [vm_compute; reflexivity |].
  apply (timer_runs_iff_active
           [JoinGame "A" true false; JoinGame "B" true true;
            PaddleMove "B" Down; Tick room1 true true] room1).
  vm_compute. reflexivity.
Defined.

(** ** The ball and the scores of a running server *)

Lemma ball_assignPaddle c gs : ball (assignPaddle c gs).1 = ball gs.
Proof.
  unfold assignPaddle. cbv zeta.
  destruct (negb (truthy (playerId (left (paddles gs))))); [done |].
  destruct (negb (truthy (playerId (right (paddles gs))))); done.
Qed.

Lemma ball_joined c gs : ball (joined c gs) = ball gs.
Proof.
  unfold joined. cbv zeta.
  destruct (Nat.eqb _ 2); cbn [ball set_gameActive];
    apply (ball_assignPaddle c (set_players _ gs)).
Qed.

Lemma onXgrid_In v : onXgrid v = true -> In v xgrid.
Proof.
  unfold onXgrid. rewrite existsb_exists. intros (g & Hg & He).
  apply FloatAxioms.Leibniz.eqb_spec in He. subst g. exact Hg.
Qed.

(** From a resting position with full speed, the ball lands on a resting
    position or outside the board. *)
Lemma move_xgrid v d :
  In v xgrid -> fullSpeed d ->
  PrimFloat.ltb (v + d) 0 = false ->
  Num.gtb (v + d)%float GAME_WIDTH = false ->
  In (v + d)%float xgrid.
Proof.
  intros Hv Hd H0 H1.
  assert (forallb
            (fun g =>
               forallb
                 (fun e => PrimFloat.ltb (g + e) 0
                           || Num.gtb (g + e)%float GAME_WIDTH
                           || onXgrid (g + e)%float)
                 [BALL_SPEED; (- BALL_SPEED)%float])
            xgrid = true) as Hall by (vm_compute; reflexivity).
  rewrite forallb_forall in Hall. specialize (Hall v Hv).
  rewrite forallb_forall in Hall. specialize (Hall d).
  assert (In d [BALL_SPEED; (- BALL_SPEED)%float]) as Hin
      by (destruct Hd as [-> | ->]; [left | right; left]; reflexivity).
  specialize (Hall Hin). rewrite H0, H1, !orb_false_l in Hall.
  apply onXgrid_In, Hall.
Qed.

Lemma xgrid_onBoard v :
  In v xgrid ->
  PrimFloat.leb 0 v = true /\ PrimFloat.leb v GAME_WIDTH = true.
Proof.
  intros Hv.
  assert (forallb (fun g => PrimFloat.leb 0 g && PrimFloat.leb g GAME_WIDTH)
                  xgrid = true) as Hall by (vm_compute; reflexivity).
  rewrite forallb_forall in Hall. apply andb_true_iff, Hall, Hv.
Qed.

Lemma centre_on_xgrid : In 400%float xgrid.
Proof. apply onXgrid_In. vm_compute. reflexivity. Qed.

Lemma updateBall_onBoard rx ry gs :
  fullSpeed (dx (ball gs)) -> In (x (ball gs)) xgrid ->
  fullSpeed (dx (ball (updateBall rx ry gs)))
  /\ In (x (ball (updateBall rx ry gs))) xgrid.
Proof.
  intros Hd Hx.
  split; [apply (dx_physOp (OpUpdate rx ry) gs Hd) |].
  destruct (updateBall_cases rx ry gs)
    as [[_ ->] | [(_ & _ & ->) | (H0 & H1 & ->)]].
  - apply centre_on_xgrid.
  - apply centre_on_xgrid.
  - cbn [ball set_ball]. rewrite x_collide in *.
    apply move_xgrid; assumption.
Qed.

Lemma evolves_ballOnBoard room room' :
  evolves room room' -> ballOnBoard room -> ballOnBoard room'.
Proof.
  unfold ballOnBoard.
  intros [r | c r | side d r | c r | rx ry r] [Hd Hx];
    cbn [gameState joinedRoom leftRoom set_gameState].
  - done.
  - rewrite ball_joined. done.
  - done.
  - done.
  - apply updateBall_onBoard; assumption.
Qed.

(** X6: after any sequence of events the ball of every room is on the
    board, 0 <= x <= 800, and its horizontal speed has the magnitude of the
    ball speed. *)
Theorem ball_stays_on_board :
  forall es rid room,
    rooms (run es initial) !! rid = Some room ->
    PrimFloat.leb 0 (x (ball (gameState room))) = true
    /\ PrimFloat.leb (x (ball (gameState room))) GAME_WIDTH = true
    /\ Num.Math_abs (dx (ball (gameState room))) = BALL_SPEED.
Proof.
  intros es rid room Hr.
  assert (ballOnBoard room) as [Hd Hx].
  { eapply (reachable_room_run ballOnBoard);
      [| apply evolves_ballOnBoard | exact Hr].
    intros c rx ry. unfold ballOnBoard. cbn [gameState joinedRoom newRoom].
    rewrite ball_joined. split; [apply fullSpeed_random |].
    apply centre_on_xgrid. }
  destruct (xgrid_onBoard _ Hx) as [H0 H1].
  split; [exact H0 |]. split; [exact H1 |]. apply fullSpeed_abs, Hd.
Qed.

Lemma ball_stays_on_board_after_a_point :
  exists room,
    rooms lastPlayer !! room1 = Some room
    /\ score (gameState room) = {| sleft := 0; sright := 1 |}
    /\ PrimFloat.leb 0 (x (ball (gameState room))) = true
    /\ PrimFloat.leb (x (ball (gameState room))) GAME_WIDTH = true
    /\ Num.Math_abs (dx (ball (gameState room))) = BALL_SPEED.
Proof.
  exists (roomOrNew true true lastPlayer).
  split; [vm_compute; reflexivity |]. split; [vm_compute; reflexivity |].
  apply (ball_stays_on_board
           ([JoinGame "A" true true; JoinGame "B" false true]
            ++ repeat (Tick room1 true true) 300 ++ [Disconnect "A"]) room1).
  vm_compute. reflexivity.
Defined.

Lemma evolves_scoresFromZero room room' :
  evolves room room' -> scoresFromZero room -> scoresFromZero room'.
Proof.
  intros Hev [Hl Hr]. destruct (evolves_score room room' Hev) as [Hl' Hr'].
  unfold scoresFromZero. lia.
Qed.

(** X7: after any sequence of events both scores of every room are
    non-negative. *)
Theorem scores_non_negative :
  forall es rid room,
    rooms (run es initial) !! rid = Some room ->
    0 <= sleft (score (gameState room))
    /\ 0 <= sright (score (gameState room)).
Proof.
  intros es rid room Hr.
  eapply (reachable_room_run scoresFromZero);
    [| apply evolves_scoresFromZero | exact Hr].
  intros c rx ry. unfold scoresFromZero. cbn [gameState joinedRoom newRoom].
  rewrite score_joined. cbn. lia.
Qed.

Lemma scores_non_negative_after_a_point :
  exists room,
    rooms lastPlayer !! room1 = Some room
    /\ sright (score (gameState room)) = 1
    /\ 0 <= sleft (score (gameState room))
    /\ 0 <= sright (score (gameState room)).
Proof.
  exists (roomOrNew true true lastPlayer).
  split; [vm_compute; reflexivity |]. split; [vm_compute; reflexivity |].
  apply (scores_non_negative
           ([JoinGame "A" true true; JoinGame "B" false true]
            ++ repeat (Tick room1 true true) 300 ++ [Disconnect "A"]) room1).
  vm_compute. reflexivity.
Defined.

(** ** Paddle steps *)

Lemma run_paddlesOnGrid es rid room :
  rooms (run es initial) !! rid = Some room -> paddlesOnGrid room.
Proof.
  apply (reachable_room_run paddlesOnGrid new_room_grid evolves_grid).
Qed.

Lemma grid_steps v :
  In v grid ->
  movePaddle Up v
  = (if PrimFloat.eqb v 0 then v else (v - PADDLE_SPEED)%float)
  /\ movePaddle Down v
     = (if PrimFloat.eqb v 320 then v else (v + PADDLE_SPEED)%float)
  /\ movePaddle Down (movePaddle Up v)
     = (if PrimFloat.eqb v 0 then PADDLE_SPEED else v)
  /\ movePaddle Up (movePaddle Down v)
     = (if PrimFloat.eqb v 320 then 315%float else v).
Proof.
  intros Hv.
  assert (forallb
            (fun g =>
               PrimFloat.Leibniz.eqb (movePaddle Up g)
                 (if PrimFloat.eqb g 0 then g else (g - PADDLE_SPEED)%float)
               && PrimFloat.Leibniz.eqb (movePaddle Down g)
                    (if PrimFloat.eqb g 320 then g
                     else (g + PADDLE_SPEED)%float)
               && PrimFloat.Leibniz.eqb (movePaddle Down (movePaddle Up g))
                    (if PrimFloat.eqb g 0 then PADDLE_SPEED else g)
               && PrimFloat.Leibniz.eqb (movePaddle Up (movePaddle Down g))
                    (if PrimFloat.eqb g 320 then 315%float else g))
            grid = true) as Hall by (vm_compute; reflexivity).
  rewrite forallb_forall in Hall. specialize (Hall v Hv).
  rewrite !andb_true_iff, !FloatAxioms.Leibniz.eqb_spec in Hall.
  tauto.
Qed.



(** ** Joining and leaving *)

Lemma server_eq (s s' : Server) :
  rooms s = rooms s' -> playerRooms s = playerRooms s' -> s = s'.
Proof. destruct s, s'. cbn. intros -> ->. reflexivity. Qed.

Lemma disconnect_falsy c s roomId :
  playerRooms s !! c = Some roomId -> truthyStr roomId = false ->
  disconnect c s = (s, []).
Proof. intros Hi Ht. unfold disconnect. rewrite Hi, Ht. reflexivity. Qed.

(** X9: [disconnect] is idempotent: whatever the state, a second disconnect
    of the same connection changes nothing and emits nothing. *)
Theorem disconnect_idempotent :
  forall c s, disconnect c (disconnect c s).1 = ((disconnect c s).1, []).
Proof.
  intros c s.
  destruct (playerRooms s !! c) as [roomId |] eqn:Hi.
  - destruct (truthyStr roomId) eqn:Ht.
    + apply disconnect_unregistered.
      rewrite (disconnect_index c s roomId Hi Ht). apply lookup_delete_eq.
    + rewrite (disconnect_falsy c s roomId Hi Ht). cbn [fst].
      apply (disconnect_falsy c s roomId Hi Ht).
  - rewrite (disconnect_unregistered c s Hi). cbn [fst].
    apply (disconnect_unregistered c s Hi).
Qed.

(** X10: when "room1" is not registered and the connection is not indexed,
    a join followed by the joiner's disconnect gives back the registries as
    they were, and the disconnect emits nothing. *)
Theorem join_then_disconnect :
  forall c rx ry s,
    rooms s !! room1 = None ->
    playerRooms s !! c = None ->
    disconnect c (joinGame c rx ry s).1 = (s, []).
Proof.
  intros c rx ry s Hr Hi.
  set (s1 := (joinGame c rx ry s).1).
  set (room := joinedRoom c (roomOrNew rx ry s)).
  assert (playerRooms s1 !! c = Some room1) as Hi1
      by (unfold s1; rewrite joinGame_index; apply lookup_insert_eq).
  assert (rooms s1 !! room1 = Some room) as Hr1
      by (unfold s1; rewrite joinGame_rooms; apply lookup_insert_eq).
  assert (players (leave c (gameState room)) = []) as Hnil.
  { rewrite players_leave. unfold room. cbn [joinedRoom gameState].
    rewrite players_joined. unfold roomOrNew. rewrite Hr. cbn.
    apply without_self. }
  apply injective_projections.
  - apply server_eq; cbn [fst].
    + rewrite (disconnect_rooms c s1 room1 room Hi1 room1_truthy Hr1), Hnil.
      cbn. unfold s1. rewrite joinGame_rooms. apply delete_insert_id, Hr.
    + rewrite (disconnect_index c s1 room1 Hi1 room1_truthy).
      unfold s1. rewrite joinGame_index. apply delete_insert_id, Hi.
  - cbn [snd].
    rewrite (disconnect_out c s1 room1 room Hi1 room1_truthy Hr1), Hnil.
    reflexivity.
Qed.

Lemma join_then_disconnect_empty_server :
  disconnect "A" (joinGame "A" true false initial).1 = (initial, []).
Proof.
  apply (join_then_disconnect "A" true false initial); reflexivity.
Defined.

(** X11: a join indexes the joiner under "room1" and appends it to the
    players of the room registered there; the index entries of the other
    connections and the rooms under other identifiers are the same. *)
Theorem join_registers :
  forall c rx ry s,
    let s' := (joinGame c rx ry s).1 in
    playerRooms s' !! c = Some room1
    /\ (exists room',
          rooms s' !! room1 = Some room'
          /\ players (gameState room')
             = players (gameState (roomOrNew rx ry s)) ++ [c])
    /\ (forall p, p <> c -> playerRooms s' !! p = playerRooms s !! p)
    /\ (forall rid, rid <> room1 -> rooms s' !! rid = rooms s !! rid).
Proof.
  intros c rx ry s s'. unfold s'. rewrite joinGame_index, joinGame_rooms.
  split; [apply lookup_insert_eq |].
  split.
  - eexists. split; [apply lookup_insert_eq |]. apply players_joined.
  - split; intros k Hk; apply lookup_insert_ne; congruence.
Qed.

Lemma joinGame_emits c rx ry s :
  let gs := gameState (roomOrNew rx ry s) in
  (joinGame c rx ry s).2
  = (assignPaddle c (set_players (players gs ++ [c]) gs)).2
    ++ (if Nat.eqb (length (players (joined c gs))) 2
        then [ToRoom room1 gameStart] else [])
    ++ [ToSocket c (gameStateMsg (joined c gs))].
Proof.
  cbv zeta. unfold joinGame, joined. cbv zeta. fold (roomOrNew rx ry s).
  destruct (assignPaddle c _) as [gs2 out]. cbn [fst snd].
  destruct (Nat.eqb (length (players gs2)) 2) eqn:E; cbn [snd players
    set_gameActive]; rewrite ?E; reflexivity.
Qed.

(** X12: a join never takes a paddle from its owner: a slot owned by a
    connection with a non-empty identifier has the same owner after the
    join, whoever joins. *)
Theorem join_keeps_owners :
  forall c rx ry s room side o,
    rooms s !! room1 = Some room ->
    playerId (paddleOf side (paddles (gameState room))) = Some o ->
    o <> "" ->
    exists room',
      rooms (joinGame c rx ry s).1 !! room1 = Some room'
      /\ playerId (paddleOf side (paddles (gameState room'))) = Some o.
Proof.
  intros c rx ry s room side o Hr Ho Hne.
  rewrite joinGame_rooms, lookup_insert_eq. eexists. split; [reflexivity |].
  unfold roomOrNew. rewrite Hr. cbn [joinedRoom gameState].
  destruct (joined_owners c (gameState room)) as [Hl Hrt].
  destruct side; cbn [paddleOf] in *.
  - rewrite Hl, Ho, (truthy_Some o Hne). reflexivity.
  - rewrite Hrt, Ho, (truthy_Some o Hne), andb_false_r. reflexivity.
Qed.

Lemma join_keeps_owners_spectator :
  let s := run [JoinGame "A" true true; JoinGame "B" true true] initial in
  exists room',
    rooms (joinGame "C" true true s).1 !! room1 = Some room'
    /\ playerId (paddleOf SRight (paddles (gameState room'))) = Some "B".
Proof.
  intros s.
  apply (join_keeps_owners "C" true true s (roomOrNew true true s) SRight "B");
    [vm_compute; reflexivity | vm_compute; reflexivity | discriminate].
Defined.

Lemma assignPaddle_emits c gs side :
  ToSocket c (paddleAssignment side) ∈ (assignPaddle c gs).2
  <-> (side = SLeft /\ truthy (playerId (left (paddles gs))) = false)
      \/ (side = SRight /\ truthy (playerId (left (paddles gs))) = true
          /\ truthy (playerId (right (paddles gs))) = false).
Proof.
  unfold assignPaddle. cbv zeta.
  destruct (truthy (playerId (left (paddles gs)))); cbn [negb snd].
  - destruct (truthy (playerId (right (paddles gs)))); cbn [negb snd].
    + rewrite elem_of_nil. split; [tauto |]. intros [[_ [=]] | (_ & _ & [=])].
    + rewrite list_elem_of_singleton.
      split; [intros [= <-]; auto | intros [[_ [=]] | [-> _]]; reflexivity].
  - rewrite list_elem_of_singleton.
    split; [intros [= <-]; auto | intros [[-> _] | (_ & [=] & _)]; reflexivity].
Qed.

(** X13: a join sends [paddleAssignment] to the joiner exactly when a slot
    is free, that is has no owner or the empty identifier as owner: "left"
    when the left slot is free, "right" when only the right one is; the
    joiner then owns the slot named. *)
Theorem join_assignment :
  forall c rx ry s side,
    let ps := paddles (gameState (roomOrNew rx ry s)) in
    (ToSocket c (paddleAssignment side) ∈ (joinGame c rx ry s).2
     <-> (side = SLeft /\ truthy (playerId (left ps)) = false)
         \/ (side = SRight /\ truthy (playerId (left ps)) = true
             /\ truthy (playerId (right ps)) = false))
    /\ (ToSocket c (paddleAssignment side) ∈ (joinGame c rx ry s).2 ->
        exists room',
          rooms (joinGame c rx ry s).1 !! room1 = Some room'
          /\ playerId (paddleOf side (paddles (gameState room'))) = Some c).
Proof.
  intros c rx ry s side ps.
  assert (ToSocket c (paddleAssignment side) ∈ (joinGame c rx ry s).2
          <-> (side = SLeft /\ truthy (playerId (left ps)) = false)
              \/ (side = SRight /\ truthy (playerId (left ps)) = true
                  /\ truthy (playerId (right ps)) = false)) as Hiff.
  { rewrite joinGame_emits. cbv zeta. rewrite !elem_of_app.
    rewrite (assignPaddle_emits c _ side). cbn [paddles set_players].
    fold ps. split; [| auto].
    intros [H | [H | H]]; [exact H | |].
    - destruct (Nat.eqb _ 2); [apply list_elem_of_singleton in H |
                               apply elem_of_nil in H]; done.
    - apply list_elem_of_singleton in H. discriminate H. }
  split; [exact Hiff |].
  intros Hin. apply Hiff in Hin.
  rewrite joinGame_rooms, lookup_insert_eq. eexists. split; [reflexivity |].
  cbn [joinedRoom gameState].
  destruct (joined_owners c (gameState (roomOrNew rx ry s))) as [Hl Hrt].
  fold ps in Hl, Hrt.
  destruct Hin as [[-> Hf] | (-> & Ht & Hf)]; cbn [paddleOf].
  - rewrite Hl, Hf. reflexivity.
  - rewrite Hrt, Ht, Hf. reflexivity.
Qed.

(** X14: a join broadcasts [gameStart] exactly when it brings the player
    list from one entry to two; the room is then active and its timer
    runs. *)
Theorem join_starts_game :
  forall c rx ry s,
    let room := roomOrNew rx ry s in
    (ToRoom room1 gameStart ∈ (joinGame c rx ry s).2
     <-> length (players (gameState room)) = 1%nat)
    /\ (length (players (gameState room)) = 1%nat ->
        exists room',
          rooms (joinGame c rx ry s).1 !! room1 = Some room'
          /\ length (players (gameState room')) = 2%nat
          /\ gameActive (gameState room') = true
          /\ gameLoop room' = true).
Proof.
  intros c rx ry s room.
  assert (Nat.eqb (length (players (joined c (gameState room)))) 2
          = Nat.eqb (length (players (gameState room))) 1) as Hlen.
  { rewrite players_joined, length_app. cbn [length].
    replace (length (players (gameState room)) + 1)%nat
      with (S (length (players (gameState room)))) by lia.
    reflexivity. }
  split.
  - rewrite joinGame_emits. cbv zeta. fold room. rewrite Hlen, !elem_of_app.
    destruct (Nat.eqb (length (players (gameState room))) 1) eqn:E.
    + apply Nat.eqb_eq in E. split; [auto |]. intros _. right. left. left.
    + apply Nat.eqb_neq in E. split; [| done].
      intros [H | [H | H]].
      * unfold assignPaddle in H. cbv zeta in H.
        destruct (negb _) in H;
          [apply list_elem_of_singleton in H; discriminate H |].
        destruct (negb _) in H;
          [apply list_elem_of_singleton in H; discriminate H |].
        apply elem_of_nil in H. done.
      * apply elem_of_nil in H. done.
      * apply list_elem_of_singleton in H. discriminate H.
  - intros Hone. rewrite joinGame_rooms, lookup_insert_eq.
    eexists. split; [reflexivity |]. fold room.
    cbn [joinedRoom gameState gameLoop].
    rewrite gameActive_joined, Hlen, players_joined, length_app, Hone.
    cbn. done.
Qed.

Lemma join_starts_game_second_player :
  let s := run [JoinGame "A" true true] initial in
  exists room',
    rooms (joinGame "B" true true s).1 !! room1 = Some room'
    /\ length (players (gameState room')) = 2%nat
    /\ gameActive (gameState room') = true
    /\ gameLoop room' = true.
Proof.
  intros s.
  destruct (join_starts_game "B" true true s) as [_ H].
  apply H. vm_compute. reflexivity.
Defined.

(** X15: when any registered connection, paddle owner or not, disconnects
    from a room in which somebody else remains, the room stays registered,
    inactive and with its timer stopped, [playerDisconnected] is broadcast,
    the connection is gone from the player list and from the index, and the
    ball, the scores and both paddle offsets are untouched. *)
Theorem disconnect_pauses_room :
  forall c s roomId room,
    playerRooms s !! c = Some roomId ->
    truthyStr roomId = true ->
    rooms s !! roomId = Some room ->
    (exists p, p ∈ players (gameState room) /\ p <> c) ->
    let s' := (disconnect c s).1 in
    playerRooms s' !! c = None
    /\ (disconnect c s).2 = [ToRoom roomId playerDisconnected]
    /\ exists room',
        rooms s' !! roomId = Some room'
        /\ gameActive (gameState room') = false
        /\ gameLoop room' = false
        /\ (forall p, p ∈ players (gameState room')
                      <-> p ∈ players (gameState room) /\ p <> c)
        /\ ball (gameState room') = ball (gameState room)
        /\ score (gameState room') = score (gameState room)
        /\ py (left (paddles (gameState room')))
           = py (left (paddles (gameState room)))
        /\ py (right (paddles (gameState room')))
           = py (right (paddles (gameState room))).
Proof.
  intros c s roomId room Hi Ht Hr Hrem s'.
  assert (Nat.eqb (length (players (leave c (gameState room)))) 0 = false)
    as Hlen.
  { destruct (Nat.eqb _ 0) eqn:E; [| reflexivity].
    apply length_zero_nil in E. exfalso. revert E. apply filter_kept, Hrem. }
  unfold s'. rewrite (disconnect_index c s roomId Hi Ht).
  rewrite (disconnect_out c s roomId room Hi Ht Hr), Hlen.
  rewrite (disconnect_rooms c s roomId room Hi Ht Hr), Hlen.
  split; [apply lookup_delete_eq |]. split; [reflexivity |].
  exists (leftRoom c room). split; [apply lookup_insert_eq |].
  cbn [leftRoom gameState gameLoop set_gameActive gameActive players ball
       score paddles].
  destruct (py_leave c (gameState room)) as [Hl Hrt].
  repeat split; try done.
  - apply elem_of_without in H. apply H.
  - apply elem_of_without in H. apply H.
  - intros [H1 H2]. apply elem_of_without. done.
Qed.

Lemma disconnect_pauses_room_spectator :
  let s := run [JoinGame "A" true true; JoinGame "B" true true;
                JoinGame "C" true true] initial in
  playerRooms (disconnect "C" s).1 !! "C" = None
  /\ (disconnect "C" s).2 = [ToRoom room1 playerDisconnected]
  /\ exists room',
      rooms (disconnect "C" s).1 !! room1 = Some room'
      /\ playerId (left (paddles (gameState room'))) = Some "A"
      /\ playerId (right (paddles (gameState room'))) = Some "B"
      /\ gameActive (gameState room') = false
      /\ gameLoop room' = false.
Proof.
  intros s.
  destruct (disconnect_pauses_room "C" s room1 (roomOrNew true true s))
    as (H1 & H2 & room' & H3 & H4 & H5 & _);
    [vm_compute; reflexivity .. | |].
  - exists "A". split; [| discriminate].
    apply list_elem_of_In. vm_compute. left. reflexivity.
  - split; [exact H1 |]. split; [exact H2 |]. exists room'.
    split; [exact H3 |].
    vm_compute in H3. injection H3 as <-. repeat split.
Defined.

(** ** Moves *)

(** X16: a move request changes nothing but the offset of a paddle that
    the requester owns: the index, the set of registered rooms, and in each
    room the timer, the ball, the scores, the players, the flag, the owners
    and every paddle of another owner are as before. *)
Theorem paddleMove_frame :
  forall c d s,
    let s' := (paddleMove c d s).1 in
    playerRooms s' = playerRooms s
    /\ (forall rid, rooms s' !! rid = None <-> rooms s !! rid = None)
    /\ (forall rid room room',
          rooms s !! rid = Some room ->
          rooms s' !! rid = Some room' ->
          id room' = id room
          /\ gameLoop room' = gameLoop room
          /\ ball (gameState room') = ball (gameState room)
          /\ score (gameState room') = score (gameState room)
          /\ players (gameState room') = players (gameState room)
          /\ gameActive (gameState room') = gameActive (gameState room)
          /\ forall side,
              playerId (paddleOf side (paddles (gameState room')))
              = playerId (paddleOf side (paddles (gameState room)))
              /\ (py (paddleOf side (paddles (gameState room')))
                  = py (paddleOf side (paddles (gameState room)))
                  \/ playerId (paddleOf side (paddles (gameState room)))
                     = Some c)).
Proof.
  intros c d s s'.
  assert (s' = s \/ exists roomId room side,
                      rooms s !! roomId = Some room
                      /\ ownedSide c (paddles (gameState room)) = Some side
                      /\ s' = {| rooms :=
                                   <[roomId :=
                                       set_gameState
                                         (set_paddles
                                            (movedPaddles side d
                                               (paddles (gameState room)))
                                            (gameState room)) room]> (rooms s);
                                 playerRooms := playerRooms s |}) as Hs.
  { unfold s'.
    destruct (playerRooms s !! c) as [roomId |] eqn:Hi;
      [| left; unfold paddleMove; rewrite Hi; reflexivity].
    destruct (truthyStr roomId) eqn:Ht;
      [| left; unfold paddleMove; rewrite Hi, Ht; reflexivity].
    destruct (rooms s !! roomId) as [room |] eqn:Hr;
      [| left; unfold paddleMove; rewrite Hi, Ht, Hr; reflexivity].
    destruct (ownedSide c (paddles (gameState room))) as [side |] eqn:Ho;
      [| left; rewrite (paddleMove_no_owner c d s roomId room Hi Hr Ho);
         reflexivity].
    right. exists roomId, room, side.
    rewrite (paddleMove_owner c d s roomId room side Hi Ht Hr Ho). done. }
  destruct Hs as [-> | (roomId & room0 & side0 & Hr0 & Ho & ->)].
  - split; [reflexivity |]. split; [reflexivity |].
    intros rid room room' Hr Hr'. assert (room' = room) as -> by congruence.
    repeat split; auto.
  - cbn [rooms playerRooms]. split; [reflexivity |]. split.
    + intros rid. destruct (decide (rid = roomId)) as [-> | Hne].
      * rewrite lookup_insert_eq, Hr0. split; discriminate.
      * rewrite lookup_insert_ne by congruence. reflexivity.
    + intros rid room room' Hr. destruct (decide (rid = roomId)) as [-> | Hne].
      * rewrite lookup_insert_eq. intros [= <-].
        assert (room0 = room) as -> by congruence.
        cbn [id gameLoop gameState set_gameState ball score players
             gameActive paddles set_paddles].
        repeat split; try reflexivity.
        { apply playerId_movedPaddles. }
        { apply ownedSide_Some in Ho.
          destruct side, side0; cbn in *; auto. }
      * rewrite lookup_insert_ne by congruence. intros Hr'.
        assert (room' = room) as -> by congruence.
        repeat split; auto.
Qed.

(** X17: a move request from a connection that owns no paddle in the room
    it is indexed under changes nothing and emits nothing. *)
Theorem paddleMove_ignored :
  forall c d s,
    (forall roomId room side,
        playerRooms s !! c = Some roomId ->
        rooms s !! roomId = Some room ->
        playerId (paddleOf side (paddles (gameState room))) <> Some c) ->
    paddleMove c d s = (s, []).
Proof.
  intros c d s Hnone. unfold paddleMove.
  destruct (playerRooms s !! c) as [roomId |] eqn:Hi; [| reflexivity].
  destruct (negb (truthyStr roomId)); [reflexivity |].
  destruct (rooms s !! roomId) as [room |] eqn:Hr; [| reflexivity].
  destruct (ownedSide c (paddles (gameState room))) as [side |] eqn:Ho;
    [| reflexivity].
  exfalso. apply (Hnone roomId room side eq_refl Hr).
  apply ownedSide_Some, Ho.
Qed.

Lemma paddleMove_ignored_spectator :
  let s := run [JoinGame "A" true true; JoinGame "B" true true;
                JoinGame "C" true true] initial in
  playerRooms s !! "C" = Some room1
  /\ paddleMove "C" Up s = (s, []).
Proof.
  intros s. split; [vm_compute; reflexivity |].
  apply (paddleMove_ignored "C" Up s).
  intros roomId room side Hi Hr.
  vm_compute in Hi. injection Hi as <-.
  vm_compute in Hr. injection Hr as <-.
  destruct side; discriminate.
Defined.

(** ** The timer functions *)




(** ** More on the physics step *)

(** X19: whatever state it is given, a physics step returns a ball that is
    neither left of 0 nor right of the board width: a ball that leaves the
    board is put back to the centre in the same step. *)
Theorem updateBall_in_bounds :
  forall rx ry gs,
    PrimFloat.ltb (x (ball (updateBall rx ry gs))) 0 = false
    /\ Num.gtb (x (ball (updateBall rx ry gs))) GAME_WIDTH = false.
Proof.
  intros rx ry gs.
  destruct (updateBall_cases rx ry gs)
    as [[_ ->] | [(_ & _ & ->) | (H0 & H1 & ->)]];
    [split; reflexivity | split; reflexivity | done].
Qed.

(** A ball at the left paddle's plane is not at the right paddle's. *)
Lemma left_plane_not_right v :
  PrimFloat.leb v PADDLE_WIDTH = true ->
  Num.geb v (GAME_WIDTH - PADDLE_WIDTH - BALL_SIZE)%float = false.
Proof.
  unfold Num.geb. rewrite !leb_spec.
  replace (Prim2SF PADDLE_WIDTH)
    with (S754_finite false 5629499534213120 (-49))
    by (vm_compute; reflexivity).
  replace (Prim2SF (GAME_WIDTH - PADDLE_WIDTH - BALL_SIZE))
    with (S754_finite false 6860952557322240 (-43))
    by (vm_compute; reflexivity).
  unfold SFleb, SFcompare.
  destruct (Prim2SF v) as [s | s | | s m e]; try destruct s;
    try congruence.
  destruct (Z.compare_spec e (-49)) as [He | He | He];
    destruct (Z.compare_spec (-43) e) as [He' | He' | He'];
    try congruence; try lia.
Qed.

(** X20: one physics step never bounces off both paddles: a ball that
    meets the left paddle's test fails the right paddle's, whatever the two
    paddle offsets. *)
Theorem one_paddle_per_step :
  forall b p q, hitsLeft b p = true -> hitsRight b q = false.
Proof.
  intros b p q H. unfold hitsLeft in H. unfold hitsRight.
  apply andb_true_iff in H as [H _]. apply andb_true_iff in H as [H _].
  rewrite (left_plane_not_right _ H). reflexivity.
Qed.

Lemma one_paddle_per_step_at_left :
  hitsLeft {| x := 6; y := 200; dx := -4; dy := 4 |} 160 = true
  /\ hitsRight {| x := 6; y := 200; dx := -4; dy := 4 |} 160 = false.
Proof.
  split; [reflexivity |].
  apply (one_paddle_per_step _ 160 160). reflexivity.
Defined.

Lemma abs_opp v : Num.Math_abs (- v) = Num.Math_abs v.
Proof.
  unfold Num.Math_abs. apply Prim2SF_inj.
  rewrite !abs_spec, opp_spec. destruct (Prim2SF v); reflexivity.
Qed.

(** X21: a step in which the ball meets no paddle and stays on the board
    moves the ball by its velocity and keeps its speed: dx is unchanged and
    dy is unchanged or, at a wall, negated. *)
Theorem free_flight :
  forall rx ry gs,
    let b := ball gs in
    let b1 := wallBounce (moveBall b) in
    hitsLeft b1 (py (left (paddles gs))) = false ->
    hitsRight b1 (py (right (paddles gs))) = false ->
    PrimFloat.ltb (x b1) 0 = false ->
    Num.gtb (x b1) GAME_WIDTH = false ->
    updateBall rx ry gs = set_ball b1 gs
    /\ x b1 = (x b + dx b)%float
    /\ y b1 = (y b + dy b)%float
    /\ dx b1 = dx b
    /\ (dy b1 = dy b \/ dy b1 = (- dy b)%float)
    /\ Num.Math_abs (dy b1) = Num.Math_abs (dy b).
Proof.
  intros rx ry gs b b1 Hl Hr H0 H1.
  assert (collide gs = b1) as Hc.
  { unfold collide, rightPaddleBounce, leftPaddleBounce. fold b b1.
    rewrite Hl, Hr. reflexivity. }
  split.
  - destruct (updateBall_cases rx ry gs)
      as [[E _] | [(_ & E & _) | (_ & _ & ->)]];
      rewrite ?Hc in *; congruence.
  - unfold b1, wallBounce. destruct (hitsWall (moveBall b)); cbn;
      repeat split; auto using abs_opp.
Qed.

Lemma free_flight_scenario :
  updateBall true true scenario
  = set_ball {| x := 399; y := 204; dx := 4; dy := 4 |} scenario.
Proof.
  destruct (free_flight true true scenario) as [H _];
    [reflexivity .. |]. exact H.
Defined.

(** ** The client and the server *)

Lemma receive_nil cl : receive [] cl = cl.
Proof. reflexivity. Qed.

Lemma delivered_room c rid roomId m :
  delivered c rid [ToRoom roomId m]
  = if bool_decide (roomId = rid) then [m] else [].
Proof. unfold delivered. cbn. destruct (bool_decide _); reflexivity. Qed.

(** X22: a client that shows the state of a room still shows the state of
    that room after a move request or a tick, once it has handled the
    messages the server emitted for it; its paddle assignment is unchanged. *)
Theorem client_follows_room :
  forall e s c rid room cl,
    quiet e ->
    rooms s !! rid = Some room ->
    view cl = Some (gameState room) ->
    let cl' := receive (delivered c rid (handle e s).2) cl in
    myPaddle cl' = myPaddle cl
    /\ exists room',
        rooms (step e s) !! rid = Some room'
        /\ view cl' = Some (gameState room').
Proof.
  intros e s c rid room cl Hq Hr Hv.
  assert (forall out, out = [] -> (handle e s).2 = out -> step e s = s ->
            let cl' := receive (delivered c rid (handle e s).2) cl in
            myPaddle cl' = myPaddle cl
            /\ exists room', rooms (step e s) !! rid = Some room'
                             /\ view cl' = Some (gameState room')) as Hnop.
  { intros out -> -> ->. cbn. split; [reflexivity |]. exists room. done. }
  destruct e as [c0 rx ry | c0 d | c0 | roomId rx ry]; try destruct Hq;
    unfold step in *; cbn [handle] in *.
  - destruct (playerRooms s !! c0) as [roomId |] eqn:Hi;
      [| apply (Hnop []); unfold paddleMove; rewrite ?Hi; reflexivity].
    destruct (truthyStr roomId) eqn:Ht;
      [| apply (Hnop []); unfold paddleMove; rewrite ?Hi, ?Ht; reflexivity].
    destruct (rooms s !! roomId) as [room0 |] eqn:Hr0;
      [| apply (Hnop []); unfold paddleMove; rewrite ?Hi, ?Ht, ?Hr0;
         reflexivity].
    destruct (ownedSide c0 (paddles (gameState room0))) as [side |] eqn:Ho;
      [| apply (Hnop []);
         rewrite ?(paddleMove_no_owner c0 d s roomId room0 Hi Hr0 Ho);
         reflexivity].
    rewrite (paddleMove_owner c0 d s roomId room0 side Hi Ht Hr0 Ho).
    cbn [fst snd rooms]. rewrite delivered_room.
    destruct (decide (roomId = rid)) as [-> | Hne].
    + rewrite bool_decide_eq_true_2 by reflexivity.
      assert (room0 = room) as -> by congruence.
      cbn. rewrite Hv. split; [reflexivity |].
      rewrite lookup_insert_eq. eexists. split; [reflexivity |]. reflexivity.
    + rewrite bool_decide_eq_false_2 by exact Hne. cbn.
      split; [reflexivity |].
      rewrite lookup_insert_ne by exact Hne. exists room. done.
  - destruct (rooms s !! roomId) as [room0 |] eqn:Hr0;
      [| apply (Hnop []); unfold tick; rewrite ?Hr0; reflexivity].
    destruct (gameLoop room0) eqn:Hl;
      [| apply (Hnop []); unfold tick; rewrite ?Hr0, ?Hl; reflexivity].
    unfold tick. rewrite Hr0, Hl.
    cbn [fst snd rooms]. rewrite delivered_room.
    destruct (decide (roomId = rid)) as [-> | Hne].
    + rewrite bool_decide_eq_true_2 by reflexivity.
      cbn. split; [reflexivity |].
      rewrite lookup_insert_eq. eexists. split; reflexivity.
    + rewrite bool_decide_eq_false_2 by exact Hne. cbn.
      split; [reflexivity |].
      rewrite lookup_insert_ne by exact Hne. exists room. done.
Qed.

Lemma client_follows_room_other_players_move :
  let s := run [JoinGame "A" true true; JoinGame "B" true true] initial in
  let room := roomOrNew true true s in
  let cl := {| view := Some (gameState room); myPaddle := Some SLeft;
               connectionStatus := "Connected";
               gameStatus := "Game Started!" |} in
  let cl' := receive (delivered "A" room1
                        (handle (PaddleMove "B" Down) s).2) cl in
  myPaddle cl' = myPaddle cl
  /\ exists room',
      rooms (step (PaddleMove "B" Down) s) !! room1 = Some room'
      /\ view cl' = Some (gameState room').
Proof.
  intros s room cl.
  apply (client_follows_room (PaddleMove "B" Down) s "A" room1 room cl);
    [exact I | vm_compute; reflexivity | reflexivity].
Defined.

Lemma ownedSide_movedPaddles c side d ps :
  ownedSide c (movedPaddles side d ps) = ownedSide c ps.
Proof. destruct side; reflexivity. Qed.

Lemma inputTick_both keys side :
  pressed "ArrowUp" keys || pressed "w" keys || pressed "W" keys = true ->
  pressed "ArrowDown" keys || pressed "s" keys || pressed "S" keys = true ->
  inputTick true (Some side) keys = [Up; Down].
Proof.
  intros Hu Hd. unfold inputTick. rewrite Hu, Hd.
  rewrite bool_decide_eq_true_2 by (eexists; reflexivity). reflexivity.
Qed.

(** X23: after any sequence of events, when the client of a paddle owner
    has an up key and a down key pressed at an input tick, the two requests
    it sends leave the owner's paddle where it was, except at offset 0,
    from where the paddle ends at 5. *)
Theorem both_keys_held :
  forall es rid room c side mine keys,
    rooms (run es initial) !! rid = Some room ->
    ownedSide c (paddles (gameState room)) = Some side ->
    pressed "ArrowUp" keys || pressed "w" keys || pressed "W" keys = true ->
    pressed "ArrowDown" keys || pressed "s" keys || pressed "S" keys = true ->
    let v := py (paddleOf side (paddles (gameState room))) in
    exists room',
      rooms (run (List.map (PaddleMove c) (inputTick true (Some mine) keys))
                 (run es initial)) !! rid = Some room'
      /\ py (paddleOf side (paddles (gameState room')))
         = (if PrimFloat.eqb v 0 then PADDLE_SPEED else v).
Proof.
  intros es rid room c side mine keys Hr Ho Hu Hd v.
  rewrite (inputTick_both keys mine Hu Hd). cbn [List.map run fold_left].
  set (s := run es initial) in *.
  destruct (run_owner_registered es rid room side c Hr
              (ownedSide_Some _ _ _ Ho)) as [_ Hi].
  fold s in Hi.
  assert (truthyStr rid = true) as Ht.
  { destruct (reachable_registryInv s) as [H1 _ _ _];
      [apply reachable_run, reach_initial |].
    rewrite (H1 rid room Hr). reflexivity. }
  unfold step at 2. cbn [handle].
  rewrite (paddleMove_owner c Up s rid room side Hi Ht Hr Ho). cbn [fst].
  set (room1' := set_gameState _ room).
  set (s1 := {| rooms := <[rid := room1']> (rooms s);
                playerRooms := playerRooms s |}).
  assert (rooms s1 !! rid = Some room1') as Hr1 by apply lookup_insert_eq.
  assert (ownedSide c (paddles (gameState room1')) = Some side) as Ho1
      by (unfold room1'; cbn; rewrite ownedSide_movedPaddles; exact Ho).
  unfold step. cbn [handle].
  rewrite (paddleMove_owner c Down s1 rid room1' side Hi Ht Hr1 Ho1).
  cbn [fst rooms]. rewrite lookup_insert_eq. eexists. split; [reflexivity |].
  cbn [gameState set_gameState paddles set_paddles].
  rewrite py_movedPaddles. unfold room1'.
  cbn [gameState set_gameState paddles set_paddles].
  rewrite py_movedPaddles. fold v.
  destruct (run_paddlesOnGrid es rid room Hr) as [Hl Hrt].
  assert (In v grid) as Hv by (unfold v; destruct side; assumption).
  apply (grid_steps v Hv).
Qed.

Lemma both_keys_held_at_top :
  let es := JoinGame "A" true true :: repeat (PaddleMove "A" Up) 32 in
  let keys := handleKeyDown "s" (handleKeyDown "w" ∅) in
  exists room',
    rooms (run (List.map (PaddleMove "A") (inputTick true (Some SLeft) keys))
               (run es initial)) !! room1 = Some room'
    /\ py (paddleOf SLeft (paddles (gameState room'))) = 5%float.
Proof.
  intros es keys.
  apply (both_keys_held es room1 (roomOrNew true true (run es initial))
           "A" SLeft SLeft keys); vm_compute; reflexivity.
Defined.
